(** * getcookie.py: Chrome cookie extraction for Playwright storage state

    A shallow embedding of [src/getcookie.py] and the properties of its
    domain matcher, cookie decryptor and storage-state merger.

    Representation choices.
    - A Python [str] is a [string] holding the UTF-8 encoding of the text
      (one [ascii] per byte).  The script only ever searches text for the
      ASCII patterns ['.'] and ["__Host-"], concatenates, splits and joins;
      on well-formed UTF-8 these act on the encoding exactly as they act on
      the code points.
    - A Python [bytes] is a [list byte], a Python [int] a [Z], and a Python
      [float] an IEEE 754 binary64 number ([spec_float] with a 53-bit
      mantissa).
    - A raised exception is a value of [exn] carried by [result]. *)

From Stdlib Require Import ZArith List Bool Lia.
From Stdlib Require Import Strings.Ascii Strings.String Strings.Byte.
From Stdlib Require Import Numbers.DecimalString.
From Stdlib Require Import Floats.SpecFloat.
Import ListNotations.

Open Scope string_scope.
Open Scope list_scope.

(** ** Python built-ins used by the script *)

Module Py.

(** Exceptions the script can see. *)
Inductive exn : Type :=
| ValueError (msg : string)
| IndexError (msg : string)
| OverflowError (msg : string).

(** [str(e)] *)
Definition str_of_exn (e : exn) : string :=
  match e with
  | ValueError msg | IndexError msg | OverflowError msg => msg
  end.

Inductive result (A : Type) : Type :=
| Ok (a : A)
| Raise (e : exn).
Arguments Ok {A} a.
Arguments Raise {A} e.

Definition bind {A B} (r : result A) (k : A -> result B) : result B :=
  match r with
  | Ok a => k a
  | Raise e => Raise e
  end.

(** [try: r except: h] with a bare [except]. *)
Definition try_except {A} (r : result A) (h : A) : A :=
  match r with
  | Ok a => a
  | Raise _ => h
  end.

(** [s.startswith(p)] *)
Fixpoint startswith (s p : string) {struct p} : bool :=
  match p with
  | EmptyString => true
  | String b p' =>
      match s with
      | EmptyString => false
      | String a s' => Ascii.eqb a b && startswith s' p'
      end
  end.

(** [s.endswith(p)] *)
Fixpoint endswith (s p : string) : bool :=
  (s =? p) ||
  match s with
  | EmptyString => false
  | String _ s' => endswith s' p
  end.

(** [c in chars] for a character and a string of characters. *)
Fixpoint char_in (c : ascii) (chars : string) : bool :=
  match chars with
  | EmptyString => false
  | String d chars' => Ascii.eqb c d || char_in c chars'
  end.

(** [s.lstrip(chars)]: drop every leading character that occurs in [chars]. *)
Fixpoint lstrip (s chars : string) : string :=
  match s with
  | EmptyString => EmptyString
  | String c s' => if char_in c chars then lstrip s' chars else s
  end.

(** [s.split(sep)] for a one-character separator. *)
Fixpoint split (s : string) (sep : ascii) : list string :=
  match s with
  | EmptyString => [EmptyString]
  | String c s' =>
      if Ascii.eqb c sep then EmptyString :: split s' sep
      else match split s' sep with
           | [] => [String c EmptyString]
           | p :: ps => String c p :: ps
           end
  end.

(** [sep.join(parts)] *)
Definition join (sep : string) (parts : list string) : string :=
  String.concat sep parts.

(** [range(a, b)] *)
Definition range (a b : nat) : list nat := seq a (b - a).

(** [bool(s)] for a [str]. *)
Definition truthy (s : string) : bool :=
  match s with
  | EmptyString => false
  | String _ _ => true
  end.

(** [bool(n)] for an [int]. *)
Definition bool_of_int (n : Z) : bool := negb (n =? 0)%Z.

(** [str(n)] for a length. *)
Definition str_of_nat (n : nat) : string :=
  NilEmpty.string_of_uint (Nat.to_uint n).

(** [l[i]]: a negative index counts from the end; an index outside the
    sequence raises [IndexError] with the message of the sequence type. *)
Definition subscript {A} (msg : string) (l : list A) (i : Z) : result A :=
  let n := Z.of_nat (List.length l) in
  let j := if (i <? 0)%Z then (i + n)%Z else i in
  if ((0 <=? j) && (j <? n))%Z then
    match nth_error l (Z.to_nat j) with
    | Some a => Ok a
    | None => Raise (IndexError msg)
    end
  else Raise (IndexError msg).

(** [data[i]] on [bytes] *)
Definition index {A} : list A -> Z -> result A :=
  subscript "index out of range".

(** [l[i]] on a [list] *)
Definition list_index {A} : list A -> Z -> result A :=
  subscript "list index out of range".

(** [l[:stop]]: a negative [stop] counts from the end and the bound is
    clamped to the sequence; slicing never raises. *)
Definition slice_to {A} (l : list A) (stop : Z) : list A :=
  let n := Z.of_nat (List.length l) in
  let j := if (stop <? 0)%Z then Z.max (stop + n) 0 else Z.min stop n in
  firstn (Z.to_nat j) l.

(** [for x in xs: body(x)] where the body may raise. *)
Fixpoint for_each {A} (xs : list A) (body : A -> result unit)
  : result unit :=
  match xs with
  | [] => Ok tt
  | x :: xs' =>
      match body x with
      | Ok _ => for_each xs' body
      | Raise e => Raise e
      end
  end.

(** [range(a, b)] over integers. *)
Definition zrange (a b : Z) : list Z :=
  map (fun k => (a + Z.of_nat k)%Z) (seq 0 (Z.to_nat (b - a))).

End Py.
Import Py.

Notation "x <- r ;; k" := (Py.bind r (fun x => k))
  (at level 61, r at next level, right associativity).

(** ** Byte strings *)

Module Bytes.

Definition to_Z (b : byte) : Z := Z.of_N (Byte.to_N b).

Definition of_Z (z : Z) : byte :=
  match Byte.of_N (Z.to_N (z mod 256)) with
  | Some b => b
  | None => x00
  end.

(** [a == b] on [bytes]. *)
Fixpoint eqb (a b : list byte) : bool :=
  match a, b with
  | [], [] => true
  | x :: a', y :: b' => Byte.eqb x y && eqb a' b'
  | _, _ => false
  end.

(** [b"..."] literals and the byte view of an encoded text. *)
Definition of_string (s : string) : list byte := list_byte_of_string s.
Definition to_string (bs : list byte) : string := string_of_list_byte bs.

(** Big-endian integers. *)
Definition of_be (bs : list byte) : Z :=
  fold_left (fun acc b => acc * 256 + to_Z b)%Z bs 0%Z.

Fixpoint to_be (n : nat) (z : Z) : list byte :=
  match n with
  | O => []
  | S n' => to_be n' (z / 256) ++ [of_Z z]
  end.

Definition xor (a b : list byte) : list byte :=
  map (fun p => of_Z (Z.lxor (to_Z (fst p)) (to_Z (snd p)))) (combine a b).

Fixpoint chunks_fuel {A} (fuel k : nat) (l : list A) : list (list A) :=
  match fuel with
  | O => []
  | S fuel' =>
      match l with
      | [] => []
      | _ :: _ => firstn k l :: chunks_fuel fuel' k (skipn k l)
      end
  end.

(** Consecutive slices of [k] elements (the last one may be shorter). *)
Definition chunks {A} (k : nat) (l : list A) : list (list A) :=
  chunks_fuel (List.length l) k l.

End Bytes.

(** ** Library primitives: hashlib and pycryptodome

    The script calls [hashlib.sha256], [Crypto.Protocol.KDF.PBKDF2] (whose
    default pseudo-random function is HMAC-SHA1) and [Crypto.Cipher.AES] in
    CBC mode.  They are written out here from their standards (FIPS 180-4,
    RFC 2104, RFC 8018, FIPS 197, SP 800-38A) so that the decryptor can be
    run on concrete cookies. *)

Module Word32.
Open Scope Z_scope.

Definition wrap (x : Z) : Z := Z.land x 4294967295.
Definition add (a b : Z) : Z := wrap (a + b).
Definition rotl (n x : Z) : Z :=
  wrap (Z.lor (Z.shiftl x n) (Z.shiftr x (32 - n))).
Definition rotr (n x : Z) : Z := rotl (32 - n) x.
Definition lnot (x : Z) : Z := Z.lxor x 4294967295.

(** Merkle-Damgard padding shared by SHA-1 and SHA-256, for a message
    whose first [done] bytes have already been hashed. *)
Definition md_pad_after (done : Z) (msg : list byte) : list byte :=
  let len := done + Z.of_nat (List.length msg) in
  msg ++ [x80] ++ repeat x00 (Z.to_nat ((55 - len) mod 64))
      ++ Bytes.to_be 8 (8 * len).

Definition md_pad (msg : list byte) : list byte := md_pad_after 0 msg.

Definition words_of (block : list byte) : list Z :=
  map Bytes.of_be (Bytes.chunks 4 block).

Definition bytes_of (ws : list Z) : list byte :=
  flat_map (Bytes.to_be 4) ws.

End Word32.

Module SHA1.
Import Word32.
Open Scope Z_scope.

Definition H0 : list Z :=
  [0x67452301; 0xEFCDAB89; 0x98BADCFE; 0x10325476; 0xC3D2E1F0].

(** The schedule is kept newest-first: position [k] holds W[t-1-k]. *)
Fixpoint schedule (n : nat) (rw : list Z) : list Z :=
  match n with
  | O => rw
  | S n' =>
      let w := rotl 1 (Z.lxor (Z.lxor (nth 2 rw 0) (nth 7 rw 0))
                              (Z.lxor (nth 13 rw 0) (nth 15 rw 0))) in
      schedule n' (w :: rw)
  end.

Definition f (t : nat) (b c d : Z) : Z :=
  if (t <? 20)%nat then Z.lor (Z.land b c) (Z.land (lnot b) d)
  else if (t <? 40)%nat then Z.lxor (Z.lxor b c) d
  else if (t <? 60)%nat
       then Z.lor (Z.lor (Z.land b c) (Z.land b d)) (Z.land c d)
  else Z.lxor (Z.lxor b c) d.

Definition K (t : nat) : Z :=
  if (t <? 20)%nat then 0x5A827999
  else if (t <? 40)%nat then 0x6ED9EBA1
  else if (t <? 60)%nat then 0x8F1BBCDC
  else 0xCA62C1D6.

Definition round (st : Z * Z * Z * Z * Z) (tw : nat * Z) :=
  let '(a, b, c, d, e) := st in
  let '(t, w) := tw in
  let tmp := add (add (add (add (rotl 5 a) (f t b c d)) e) (K t)) w in
  (tmp, a, rotl 30 b, c, d).

Definition compress (h : list Z) (block : list byte) : list Z :=
  let w := rev (schedule 64 (rev (words_of block))) in
  let st0 := (nth 0 h 0, nth 1 h 0, nth 2 h 0, nth 3 h 0, nth 4 h 0) in
  let '(a, b, c, d, e) :=
    fold_left round (combine (seq 0 80) w) st0 in
  map (fun p => add (fst p) (snd p)) (combine h [a; b; c; d; e]).

Definition digest (msg : list byte) : list byte :=
  bytes_of (fold_left compress (Bytes.chunks 64 (md_pad msg)) H0).

End SHA1.

Module SHA256.
Import Word32.
Open Scope Z_scope.

Definition is_prime (n : nat) : bool :=
  forallb (fun d => negb (Nat.eqb (Nat.modulo n d) 0)) (seq 2 (n - 2)).

Definition primes : list Z :=
  map Z.of_nat (filter is_prime (seq 2 310)).

(** Largest [r] below [2^bits] with [r^k <= n]. *)
Fixpoint iroot (k : Z) (bits : nat) (n r : Z) : Z :=
  match bits with
  | O => r
  | S b =>
      let r' := r + 2 ^ Z.of_nat b in
      iroot k b n (if r' ^ k <=? n then r' else r)
  end.

(** First 32 bits of the fractional part of the [k]-th root of [p]. *)
Definition frac_root (k p : Z) : Z :=
  wrap (iroot k 40 (p * 2 ^ (32 * k)) 0).

Definition H0 : list Z :=
  Eval vm_compute in map (frac_root 2) (firstn 8 primes).

Definition K : list Z :=
  Eval vm_compute in map (frac_root 3) (firstn 64 primes).

Definition Ch (x y z : Z) : Z :=
  Z.lxor (Z.land x y) (Z.land (lnot x) z).
Definition Maj (x y z : Z) : Z :=
  Z.lxor (Z.lxor (Z.land x y) (Z.land x z)) (Z.land y z).
Definition Sigma0 (x : Z) : Z :=
  Z.lxor (Z.lxor (rotr 2 x) (rotr 13 x)) (rotr 22 x).
Definition Sigma1 (x : Z) : Z :=
  Z.lxor (Z.lxor (rotr 6 x) (rotr 11 x)) (rotr 25 x).
Definition sigma0 (x : Z) : Z :=
  Z.lxor (Z.lxor (rotr 7 x) (rotr 18 x)) (Z.shiftr x 3).
Definition sigma1 (x : Z) : Z :=
  Z.lxor (Z.lxor (rotr 17 x) (rotr 19 x)) (Z.shiftr x 10).

(** Newest-first schedule, as in [SHA1.schedule]. *)
Fixpoint schedule (n : nat) (rw : list Z) : list Z :=
  match n with
  | O => rw
  | S n' =>
      let w := add (add (add (sigma1 (nth 1 rw 0)) (nth 6 rw 0))
                        (sigma0 (nth 14 rw 0))) (nth 15 rw 0) in
      schedule n' (w :: rw)
  end.

Definition round (st : list Z) (kw : Z * Z) : list Z :=
  match st with
  | [a; b; c; d; e; f; g; h] =>
      let t1 := add (add (add (add h (Sigma1 e)) (Ch e f g)) (fst kw))
                    (snd kw) in
      let t2 := add (Sigma0 a) (Maj a b c) in
      [add t1 t2; a; b; c; add d t1; e; f; g]
  | _ => st
  end.

Definition compress (h : list Z) (block : list byte) : list Z :=
  let w := rev (schedule 48 (rev (words_of block))) in
  map (fun p => add (fst p) (snd p))
      (combine h (fold_left round (combine K w) h)).

Definition digest (msg : list byte) : list byte :=
  bytes_of (fold_left compress (Bytes.chunks 64 (md_pad msg)) H0).

End SHA256.

Module HMAC_SHA1.

Definition block_key (key : list byte) : list byte :=
  let k := if (64 <? List.length key)%nat then SHA1.digest key else key in
  k ++ repeat x00 (64 - List.length k).

(** The hash states after the inner and the outer key block; they depend
    on the key only. *)
Definition keyed (key : list byte) : list Z * list Z :=
  let k := block_key key in
  (SHA1.compress SHA1.H0 (Bytes.xor k (repeat x36 64)),
   SHA1.compress SHA1.H0 (Bytes.xor k (repeat x5c 64))).

(** SHA-1 of [prefix ++ msg] where [h] is the state after the 64-byte
    [prefix]. *)
Definition resume (h : list Z) (msg : list byte) : list byte :=
  Word32.bytes_of
    (fold_left SHA1.compress
               (Bytes.chunks 64 (Word32.md_pad_after 64 msg)) h).

Definition mac_keyed (ks : list Z * list Z) (msg : list byte) : list byte :=
  resume (snd ks) (resume (fst ks) msg).

Definition mac (key msg : list byte) : list byte :=
  mac_keyed (keyed key) msg.

End HMAC_SHA1.

(** [Crypto.Protocol.KDF.PBKDF2(password, salt, dkLen, count)] *)
Module KDF.

Fixpoint iterate (ks : list Z * list Z) (n : nat) (u acc : list byte)
  : list byte :=
  match n with
  | O => acc
  | S n' =>
      let u' := HMAC_SHA1.mac_keyed ks u in
      iterate ks n' u' (Bytes.xor acc u')
  end.

Definition block (ks : list Z * list Z) (salt : list byte)
           (count i : nat) : list byte :=
  let u1 := HMAC_SHA1.mac_keyed ks (salt ++ Bytes.to_be 4 (Z.of_nat i)) in
  iterate ks (count - 1) u1 u1.

Definition PBKDF2 (password salt : list byte) (dkLen count : nat)
  : list byte :=
  let ks := HMAC_SHA1.keyed password in
  firstn dkLen (flat_map (block ks salt count) (seq 1 ((dkLen + 19) / 20))).

End KDF.

(** [Crypto.Cipher.AES] with a 16-byte key, in CBC mode. *)
Module AES.
Open Scope Z_scope.

(** Arithmetic of GF(2^8) modulo x^8 + x^4 + x^3 + x + 1. *)
Definition xtime (a : Z) : Z :=
  let a2 := Z.shiftl a 1 in
  if Z.testbit a 7 then Z.lxor (Z.land a2 255) 27 else a2.

Fixpoint gmul_bits (n : nat) (a b : Z) : Z :=
  match n with
  | O => 0
  | S n' =>
      Z.lxor (if Z.odd b then a else 0)
             (gmul_bits n' (xtime a) (Z.shiftr b 1))
  end.

Definition gmul (a b : Z) : Z := gmul_bits 8 a b.

Fixpoint gpow (a : Z) (n : nat) : Z :=
  match n with
  | O => 1
  | S n' => gmul a (gpow a n')
  end.

Definition rotl8 (x n : Z) : Z :=
  Z.land (Z.lor (Z.shiftl x n) (Z.shiftr x (8 - n))) 255.

(** SubBytes: the inverse in the field followed by the affine map. *)
Definition sbox_of (x : Z) : Z :=
  let b := gpow x 254 in
  Z.lxor (Z.lxor (Z.lxor b (rotl8 b 1)) (Z.lxor (rotl8 b 2) (rotl8 b 3)))
         (Z.lxor (rotl8 b 4) 99).

Definition sbox_table : list Z :=
  Eval vm_compute in map (fun i => sbox_of (Z.of_nat i)) (seq 0 256).

Definition inv_sbox_table : list Z :=
  Eval vm_compute in
    map (fun y =>
           fold_left (fun acc i =>
                        if nth i sbox_table 0 =? Z.of_nat y
                        then Z.of_nat i else acc)
                     (seq 0 256) 0)
        (seq 0 256).

Definition sbox (x : Z) : Z := nth (Z.to_nat x) sbox_table 0.
Definition inv_sbox (x : Z) : Z := nth (Z.to_nat x) inv_sbox_table 0.

(** The state is the 16-byte block in input order: row [r] of column [c]
    sits at position [r + 4c]. *)
Definition state_init (f : nat -> nat -> Z) : list Z :=
  map (fun i => f (i mod 4)%nat (i / 4)%nat) (seq 0 16).

Definition at_rc (st : list Z) (r c : nat) : Z :=
  nth (r + 4 * (c mod 4))%nat st 0.

Definition shift_rows (st : list Z) : list Z :=
  state_init (fun r c => at_rc st r (c + r)).

Definition inv_shift_rows (st : list Z) : list Z :=
  state_init (fun r c => at_rc st r (c + 4 - r)).

Definition mix_with (m : list Z) (st : list Z) : list Z :=
  state_init (fun r c =>
    fold_left Z.lxor
      (map (fun k => gmul (nth ((k + 4 - r) mod 4) m 0) (at_rc st k c))
           (seq 0 4)) 0).

Definition mix_columns : list Z -> list Z := mix_with [2; 3; 1; 1].
Definition inv_mix_columns : list Z -> list Z := mix_with [14; 11; 13; 9].

Definition add_round_key (st rk : list Z) : list Z :=
  map (fun p => Z.lxor (fst p) (snd p)) (combine st rk).

(** Key schedule for Nk = 4, one round key at a time. *)
Definition next_round_key (rk : list Z) (rcon : Z) : list Z :=
  match Bytes.chunks 4 rk with
  | [w0; w1; w2; w3] =>
      let x := fun a b => map (fun p => Z.lxor (fst p) (snd p)) (combine a b) in
      let t := x (map sbox (skipn 1 w3 ++ firstn 1 w3)) [rcon; 0; 0; 0] in
      let w0' := x w0 t in
      let w1' := x w1 w0' in
      let w2' := x w2 w1' in
      let w3' := x w3 w2' in
      w0' ++ w1' ++ w2' ++ w3'
  | _ => rk
  end.

Fixpoint expand_key (n : nat) (rk : list Z) (rcon : Z) : list (list Z) :=
  match n with
  | O => [rk]
  | S n' => rk :: expand_key n' (next_round_key rk rcon) (xtime rcon)
  end.

Definition round_keys (key : list byte) : list (list Z) :=
  expand_key 10 (map Bytes.to_Z key) 1.

Definition encrypt_block (rks : list (list Z)) (block : list byte)
  : list byte :=
  match rks with
  | [] => block
  | rk0 :: rest =>
      let st := add_round_key (map Bytes.to_Z block) rk0 in
      let st :=
        fold_left
          (fun st rk =>
             add_round_key (mix_columns (shift_rows (map sbox st))) rk)
          (removelast rest) st in
      map Bytes.of_Z
        (add_round_key (shift_rows (map sbox st)) (last rest []))
  end.

Definition decrypt_block (rks : list (list Z)) (block : list byte)
  : list byte :=
  match rev rks with
  | [] => block
  | rk10 :: rest =>
      let st := add_round_key (map Bytes.to_Z block) rk10 in
      let st :=
        fold_left
          (fun st rk =>
             inv_mix_columns
               (add_round_key (map inv_sbox (inv_shift_rows st)) rk))
          (removelast rest) st in
      map Bytes.of_Z
        (add_round_key (map inv_sbox (inv_shift_rows st)) (last rest []))
  end.

Fixpoint cbc_decrypt_blocks (rks : list (list Z)) (prev : list byte)
         (blocks : list (list byte)) : list byte :=
  match blocks with
  | [] => []
  | c :: blocks' =>
      Bytes.xor (decrypt_block rks c) prev
        ++ cbc_decrypt_blocks rks c blocks'
  end.

Fixpoint cbc_encrypt_blocks (rks : list (list Z)) (prev : list byte)
         (blocks : list (list byte)) : list byte :=
  match blocks with
  | [] => []
  | p :: blocks' =>
      let c := encrypt_block rks (Bytes.xor p prev) in
      c ++ cbc_encrypt_blocks rks c blocks'
  end.

(** [AES.new(key, AES.MODE_CBC, iv).decrypt(data)]: the library refuses
    data that is not a whole number of 16-byte blocks. *)
Definition cbc_decrypt (key iv data : list byte) : result (list byte) :=
  if (List.length data mod 16 =? 0)%nat
  then Ok (cbc_decrypt_blocks (round_keys key) iv (Bytes.chunks 16 data))
  else Raise (ValueError
                "Data must be padded to 16 byte boundary in CBC mode").

(** [AES.new(key, AES.MODE_CBC, iv).encrypt(data)], used to build test
    cookies. *)
Definition cbc_encrypt (key iv data : list byte) : result (list byte) :=
  if (List.length data mod 16 =? 0)%nat
  then Ok (cbc_encrypt_blocks (round_keys key) iv (Bytes.chunks 16 data))
  else Raise (ValueError
                "Data must be padded to 16 byte boundary in CBC mode").

End AES.

(** [bytes.decode('utf-8', errors='ignore')] and [str.encode()] *)
Module UTF8.
Open Scope Z_scope.

Definition is_continuation (b : Z) : bool := (128 <=? b) && (b <=? 191).

(** The second byte must continue the sequence and must exclude overlong
    forms, surrogates and code points above U+10FFFF. *)
Definition second_ok (lead b2 : Z) : bool :=
  is_continuation b2 &&
  (if lead =? 224 then 160 <=? b2
   else if lead =? 237 then b2 <? 160
   else if lead =? 240 then 144 <=? b2
   else if lead =? 244 then b2 <? 144
   else true).

(** The decoder keeps every well-formed sequence and drops the bytes of
    each malformed one: an invalid start byte alone, a sequence broken by
    a bad continuation byte up to that byte, a sequence cut by the end of
    the data whole. *)
Fixpoint well_formed_part (data : list byte) : list byte :=
  match data with
  | [] => []
  | b1 :: t1 =>
      let lead := Bytes.to_Z b1 in
      if lead <? 128 then b1 :: well_formed_part t1
      else if (lead <? 194) || (245 <=? lead) then well_formed_part t1
      else
        match t1 with
        | [] => []
        | b2 :: t2 =>
            if negb (second_ok lead (Bytes.to_Z b2)) then well_formed_part t1
            else if lead <? 224 then b1 :: b2 :: well_formed_part t2
            else
              match t2 with
              | [] => []
              | b3 :: t3 =>
                  if negb (is_continuation (Bytes.to_Z b3))
                  then well_formed_part t2
                  else if lead <? 240
                  then b1 :: b2 :: b3 :: well_formed_part t3
                  else
                    match t3 with
                    | [] => []
                    | b4 :: t4 =>
                        if negb (is_continuation (Bytes.to_Z b4))
                        then well_formed_part t3
                        else b1 :: b2 :: b3 :: b4 :: well_formed_part t4
                    end
              end
        end
  end.

Definition decode_ignore (data : list byte) : string :=
  Bytes.to_string (well_formed_part data).

Definition encode (s : string) : list byte := Bytes.of_string s.

End UTF8.

(** Python [float]: IEEE 754 binary64, round to nearest even. *)
Module Float.
Open Scope Z_scope.

Definition prec : Z := 53.
Definition emax : Z := 1024.

(** [float(n)] for an [int]: the nearest float, ties to even.  (Python
    raises [OverflowError] from 2^1024 on; the integers of an SQLite column
    have 64 bits.) *)
Definition of_int (n : Z) : spec_float :=
  binary_normalize prec emax n 0 false.

Definition div (x y : spec_float) : spec_float := SFdiv prec emax x y.
Definition sub (x y : spec_float) : spec_float := SFsub prec emax x y.

(** [int(x)]: truncation toward zero. *)
Definition to_int (x : spec_float) : result Z :=
  match x with
  | S754_zero _ => Ok 0
  | S754_finite s m e =>
      let a := if 0 <=? e then Zpos m * 2 ^ e else Zpos m / 2 ^ (- e) in
      Ok (if s then - a else a)
  | S754_infinity _ =>
      Raise (OverflowError "cannot convert float infinity to integer")
  | S754_nan => Raise (ValueError "cannot convert float NaN to integer")
  end.

End Float.

(** ** The script *)

(** Chrome encryption parameters *)
Definition SALT : list byte := Bytes.of_string "saltysalt".
Definition IV : list byte := repeat x20 16.
Definition LENGTH : nat := 16.
Definition ITERATIONS : nat := 1003.

(** *** class Cookie *)

Record Cookie : Type := {
  name : string;
  value : string;
  domain : string;
  path : string;
  encrypted : list byte;
  expires : Z;
  is_secure : Z;
  is_httponly : Z;
  same_site : Z;
  host_key : string
}.

(** [Cookie._unpad]: remove PKCS7 padding. *)
Definition _unpad (data : list byte) : result (list byte) :=
  padding <- index (map Bytes.to_Z data) (-1) ;;
  if (16 <? padding)%Z then Raise (ValueError "Invalid padding")
  else
    _ <- for_each (zrange 1 (padding + 1))
           (fun i =>
              b <- index (map Bytes.to_Z data) (- i) ;;
              if negb (b =? padding)%Z
              then Raise (ValueError "Invalid padding")
              else Ok tt) ;;
    Ok (slice_to data (- padding)).

(** Lines 73-83 of [Cookie.decrypted], what it does with [plaintext] once
    the padding has been dealt with: the SHA-256 of the host key that newer
    Chrome versions prepend to the value is dropped when it is there. *)
Definition strip_domain_hash (self_host_key : string) (plaintext : list byte)
  : string :=
  if (32 <=? List.length plaintext)%nat then
    let hash_value := firstn 32 plaintext in
    let computed := SHA256.digest (UTF8.encode self_host_key) in
    if Bytes.eqb hash_value computed
    then UTF8.decode_ignore (skipn 32 plaintext)
    else UTF8.decode_ignore plaintext
  else UTF8.decode_ignore plaintext.

(** [Cookie.decrypted] *)
Definition decrypted (self : Cookie) (password : string) : result string :=
  if truthy (value self) then Ok (value self)
  else
    match encrypted self with
    | _ :: _ =>
        if existsb (Bytes.eqb (firstn 3 (encrypted self)))
                   [Bytes.of_string "v10"; Bytes.of_string "v11"]
        then
          let encrypted_value := skipn 3 (encrypted self) in
          let key := KDF.PBKDF2 (UTF8.encode password) SALT LENGTH ITERATIONS in
          decrypted <- AES.cbc_decrypt key IV encrypted_value ;;
          let plaintext := try_except (_unpad decrypted) decrypted in
          Ok (strip_domain_hash (host_key self) plaintext)
        else Ok (UTF8.decode_ignore (encrypted self))
    | [] => Ok ""
    end.

(** *** get_cookies *)

(** A row of Chrome's [cookies] table, restricted to the selected columns.
    The connection's text factory is [bytes], so text columns arrive
    undecoded. *)
Module DbRow.
Record t : Type := {
  name : list byte;
  value : list byte;
  host_key : list byte;
  path : list byte;
  encrypted_value : list byte;
  expires_utc : Z;
  is_secure : Z;
  is_httponly : Z;
  samesite : Z
}.
End DbRow.

Definition domains_to_query (domain : string) : list string :=
  let q := [domain] in
  let q := if negb (startswith domain ".")
           then q ++ [("." ++ domain)%string] else q in
  if char_in "."%char domain && negb (startswith domain ".") then
    let parts := split domain "."%char in
    fold_left
      (fun q i => q ++ [("." ++ join "." (skipn i parts))%string])
      (range 1 (List.length parts)) q
  else q.

(** The [WHERE host_key = ? OR host_key = ? ...] filter: SQLite compares
    the stored text with each bound parameter byte for byte. *)
Definition where_conditions (domains : list string) (row : DbRow.t) : bool :=
  existsb (fun d => Bytes.eqb (DbRow.host_key row) (UTF8.encode d)) domains.

(** [get_cookies], given the rows of the copied database. *)
Definition get_cookies (domain : string) (table : list DbRow.t)
  : list Cookie * list string :=
  let domains_to_query := domains_to_query domain in
  let cookies :=
    map (fun row =>
           {| name := UTF8.decode_ignore (DbRow.name row);
              value := UTF8.decode_ignore (DbRow.value row);
              domain := domain;
              path := UTF8.decode_ignore (DbRow.path row);
              encrypted := DbRow.encrypted_value row;
              expires := DbRow.expires_utc row;
              is_secure := DbRow.is_secure row;
              is_httponly := DbRow.is_httponly row;
              same_site := DbRow.samesite row;
              host_key := UTF8.decode_ignore (DbRow.host_key row) |})
        (filter (where_conditions domains_to_query) table) in
  (cookies, domains_to_query).

(** *** main *)

(** A cookie entry of the Playwright storage state, the shape of
    [cookie_dict]; the key ["expires"] may be absent. *)
Module Entry.
Record t : Type := {
  name : string;
  value : string;
  domain : string;
  path : string;
  httpOnly : bool;
  secure : bool;
  sameSite : string;
  expires : option Z
}.

(** [cookie_dict["expires"] = v] *)
Definition set_expires (d : t) (v : Z) : t :=
  {| name := name d; value := value d; domain := domain d; path := path d;
     httpOnly := httpOnly d; secure := secure d; sameSite := sameSite d;
     expires := Some v |}.
End Entry.

(** The storage state document: [{"cookies": [...], "origins": [...]}].
    The script never looks inside an origin entry. *)
Module Storage.
Record t (Origin : Type) : Type := {
  cookies : list Entry.t;
  origins : list Origin
}.
Arguments cookies {Origin} _.
Arguments origins {Origin} _.
Arguments Build_t {Origin} _ _.
End Storage.

(** The conditional expression stored under ["sameSite"]:
    [["None", "Lax", "Strict"][cookie.same_site] if cookie.same_site < 3
     else "None"]. *)
Definition sameSite_of (same_site : Z) : result string :=
  if (same_site <? 3)%Z
  then list_index ["None"; "Lax"; "Strict"] same_site
  else Ok "None".

(** The expression stored under ["expires"]:
    [int(cookie.expires / 1e6 - 11644473600)].  The division by the float
    literal [1e6] converts the integer to a float first, and the
    subtraction is a float subtraction. *)
Definition unix_seconds (expires_utc : Z) : result Z :=
  Float.to_int
    (Float.sub (Float.div (Float.of_int expires_utc) (Float.of_int 1000000))
               (Float.of_int 11644473600)).

(** One turn of the loop [for cookie in cookies] of [main].  The loop
    assigns to [domain], the variable that holds the command-line argument,
    so the variable is part of the loop state next to [new_cookies]. *)
Definition convert (password : string)
           (state : list Entry.t * string) (cookie : Cookie)
  : result (list Entry.t * string) :=
  let '(new_cookies, domain) := state in
  decrypted_value <- decrypted cookie password ;;
  if truthy decrypted_value then
    let domain :=
      if startswith (name cookie) "__Host-"
      then lstrip (host_key cookie) "."
      else if startswith (host_key cookie) "."
           then host_key cookie
           else ("." ++ host_key cookie)%string in
    sameSite <- sameSite_of (same_site cookie) ;;
    let cookie_dict :=
      {| Entry.name := name cookie;
         Entry.value := decrypted_value;
         Entry.domain := domain;
         Entry.path := path cookie;
         Entry.httpOnly := bool_of_int (is_httponly cookie);
         Entry.secure := bool_of_int (is_secure cookie);
         Entry.sameSite := sameSite;
         Entry.expires := None |} in
    if (0 <? expires cookie)%Z then
      seconds <- unix_seconds (expires cookie) ;;
      Ok (new_cookies ++ [Entry.set_expires cookie_dict seconds], domain)
    else Ok (new_cookies ++ [cookie_dict], domain)
  else Ok (new_cookies, domain).

(** [for cookie in cookies: ...] *)
Fixpoint convert_all (password : string) (state : list Entry.t * string)
         (cookies : list Cookie) : result (list Entry.t * string) :=
  match cookies with
  | [] => Ok state
  | cookie :: rest =>
      state' <- convert password state cookie ;;
      convert_all password state' rest
  end.

(** The filter that removes old cookies for the queried domains. *)
Definition stale (domains_queried : list string) (c : Entry.t) : bool :=
  existsb (fun d => endswith (Entry.domain c) (lstrip d ".")) domains_queried.

(** What a run leaves behind. *)
Inductive outcome (Origin : Type) : Type :=
| Saved (storage_state : Storage.t Origin) (stdout : list string)
| Failed (stderr : list string).
Arguments Saved {Origin} _ _.
Arguments Failed {Origin} _.

Definition newline : string := String (ascii_of_nat 10) EmptyString.

(** [main], from the call of [get_cookies] on.  Its inputs are the
    command-line domain, the Safe Storage password, the rows of the cookie
    database and the storage state read from [storage.json] (or the empty
    default). *)
Definition main {Origin} (domain password : string) (table : list DbRow.t)
           (storage_state : Storage.t Origin) : outcome Origin :=
  let '(cookies, domains_queried) := get_cookies domain table in
  match cookies with
  | [] =>
      Failed [("Error: No cookies found for domain: " ++ domain)%string;
              ("Make sure you are logged into https://" ++ domain
                 ++ " in Chrome")%string]
  | _ :: _ =>
      match convert_all password ([], domain) cookies with
      | Raise e => Failed [("Error: " ++ str_of_exn e)%string]
      | Ok (new_cookies, domain) =>
          let storage_state :=
            {| Storage.cookies :=
                 filter (fun c => negb (stale domains_queried c))
                        (Storage.cookies storage_state)
                 ++ new_cookies;
               Storage.origins := Storage.origins storage_state |} in
          Saved storage_state
            [("✓ Extracted " ++ str_of_nat (List.length new_cookies)
                ++ " cookies for " ++ domain)%string;
             "✓ Updated storage.json";
             (newline
                ++ "You can now restart Claude Code and use Playwright to navigate to https://"
                ++ domain)%string]
      end
  end.

(** ** More of the Python library: [str.strip] and [os.path.join] *)

Module Str.

(** [c.isspace()] for the characters below U+0080. *)
Definition ascii_space (c : ascii) : bool :=
  let n := nat_of_ascii c in
  (((9 <=? n) && (n <=? 13)) || ((28 <=? n) && (n <=? 32)))%nat.

(** The two-byte encodings of the whitespace U+0085 and U+00A0. *)
Definition space2 (c1 c2 : ascii) : bool :=
  ((nat_of_ascii c1 =? 194)
   && ((nat_of_ascii c2 =? 133) || (nat_of_ascii c2 =? 160)))%nat.

(** The three-byte encodings of the whitespace U+1680, U+2000 to U+200A,
    U+2028, U+2029, U+202F, U+205F and U+3000. *)
Definition space3 (c1 c2 c3 : ascii) : bool :=
  let n1 := nat_of_ascii c1 in
  let n2 := nat_of_ascii c2 in
  let n3 := nat_of_ascii c3 in
  (((n1 =? 225) && (n2 =? 154) && (n3 =? 128))
   || ((n1 =? 226) && (n2 =? 128)
       && (((128 <=? n3) && (n3 <=? 138))
           || (n3 =? 168) || (n3 =? 169) || (n3 =? 175)))
   || ((n1 =? 226) && (n2 =? 129) && (n3 =? 159))
   || ((n1 =? 227) && (n2 =? 128) && (n3 =? 128)))%nat.

(** Drop the whitespace at the front.  With [backwards] the string is read
    from its end, so the bytes of a character come in reverse. *)
Fixpoint drop_space (backwards : bool) (s : string) : string :=
  match s with
  | EmptyString => EmptyString
  | String c1 t1 =>
      if ascii_space c1 then drop_space backwards t1
      else
        match t1 with
        | EmptyString => s
        | String c2 t2 =>
            if (if backwards then space2 c2 c1 else space2 c1 c2)
            then drop_space backwards t2
            else
              match t2 with
              | EmptyString => s
              | String c3 t3 =>
                  if (if backwards then space3 c3 c2 c1 else space3 c1 c2 c3)
                  then drop_space backwards t3
                  else s
              end
        end
  end.

Fixpoint reverse_onto (s acc : string) : string :=
  match s with
  | EmptyString => acc
  | String c s' => reverse_onto s' (String c acc)
  end.

Definition reverse (s : string) : string := reverse_onto s EmptyString.

(** [s.strip()] *)
Definition strip (s : string) : string :=
  reverse (drop_space true (reverse (drop_space false s))).

End Str.

Module Path.

(** [os.path.join(a, *p)] on a POSIX system. *)
Definition join (a : string) (p : list string) : string :=
  fold_left
    (fun path b =>
       if startswith b "/" then b
       else if negb (truthy path) || endswith path "/" then (path ++ b)%string
       else (path ++ "/" ++ b)%string)
    p a.

End Path.

(** *** get_password *)

(** What [subprocess.run(cmd, capture_output=True, text=True, check=True)]
    did with [/usr/bin/security]: the command exited with status 0 and this
    output, or with another status, for which [check] raises. *)
Inductive completed : Type :=
| Exited0 (stdout : string)
| CalledProcessError (stderr : string).

(** The exceptions raised around the cookie code. *)
Inductive failure : Type :=
| NotImplementedError (msg : string)
| FileNotFoundError (msg : string)
| Exception (msg : string).

(** [str(e)] *)
Definition str_of_failure (e : failure) : string :=
  match e with
  | NotImplementedError msg | FileNotFoundError msg | Exception msg => msg
  end.

(** [get_password], given [platform.system()] and what the [security]
    command does when it is run. *)
Definition get_password (system : string) (security : completed)
  : failure + string :=
  if negb (system =? "Darwin") then
    inl (NotImplementedError "This script currently only supports macOS")
  else
    match security with
    | Exited0 stdout => inr (Str.strip stdout)
    | CalledProcessError stderr =>
        inl (Exception
               ("Failed to get password from keychain: " ++ stderr)%string)
    end.

(** *** The files of a run *)

(** The path [get_cookies] builds for the cookie database. *)
Definition cookies_file (home profile_name : string) : string :=
  Path.join home
    ["Library"; "Application Support"; "Google"; "Chrome"; profile_name;
     "Cookies"].

(** The start of [get_cookies]: the existence check on the database file.
    [databases] gives the rows of the [cookies] table of the Chrome
    database stored at a path, if there is one. *)
Definition open_cookies (home profile_name : string)
           (databases : string -> option (list DbRow.t))
  : failure + list DbRow.t :=
  match databases (cookies_file home profile_name) with
  | Some table => inr table
  | None =>
      inl (FileNotFoundError
             ("Cookie file not found: " ++ cookies_file home profile_name)%string)
  end.

(** The module docstring, printed as the usage text. *)
Definition __doc__ : string :=
  String.concat newline
    [""; "Extract Chrome cookies for a domain and save to storage.json for Playwright.";
     ""; "Usage:"; "    ./getcookie.py <domain>"; "    "; "Examples:";
     "    ./getcookie.py github.com"; "    ./getcookie.py console.anthropic.com";
     ""].

(** Everything a run reads from outside: the command line, the platform,
    what the keychain command does, the home directory, the cookie databases
    by path, and the state held by [cookies/storage.json] ([None] when
    [open] or [json.load] raises, which the bare [except] turns into the
    empty state). *)
Record World (Origin : Type) : Type := {
  argv : list string;
  system : string;
  security : completed;
  home : string;
  databases : string -> option (list DbRow.t);
  storage_json : option (Storage.t Origin)
}.
Arguments argv {Origin} _.
Arguments system {Origin} _.
Arguments security {Origin} _.
Arguments home {Origin} _.
Arguments databases {Origin} _.
Arguments storage_json {Origin} _.

(** Everything a run leaves: the exit status, what it printed, and the
    state it wrote to [storage.json], if it wrote. *)
Record Exit (Origin : Type) : Type := {
  status : Z;
  stdout : list string;
  stderr : list string;
  written : option (Storage.t Origin)
}.
Arguments status {Origin} _.
Arguments stdout {Origin} _.
Arguments stderr {Origin} _.
Arguments written {Origin} _.
Arguments Build_Exit {Origin} _ _ _ _.

(** A whole run of the script, [main()] from its first line: the argument
    check, the password, the database and the storage file around the part
    modelled by [main].  Creating the [cookies] directory, copying the
    database to a temporary file and writing [storage.json] are taken to
    succeed. *)
Definition getcookie {Origin} (w : World Origin) : Exit Origin :=
  match argv w with
  | [] | [_] =>
      {| status := 1; stdout := [__doc__]; stderr := []; written := None |}
  | _ :: domain :: rest =>
      let profile := match rest with p :: _ => p | [] => "Default" end in
      let report (msg : string) : Exit Origin :=
        {| status := 1; stdout := [];
           stderr := [("Error: " ++ msg)%string]; written := None |} in
      match get_password (system w) (security w) with
      | inl e => report (str_of_failure e)
      | inr password =>
          match open_cookies (home w) profile (databases w) with
          | inl e => report (str_of_failure e)
          | inr table =>
              let storage_state :=
                match storage_json w with
                | Some state => state
                | None => {| Storage.cookies := []; Storage.origins := [] |}
                end in
              match main domain password table storage_state with
              | Saved storage_state' out =>
                  {| status := 0; stdout := out; stderr := [];
                     written := Some storage_state' |}
              | Failed err =>
                  {| status := 1; stdout := []; stderr := err;
                     written := None |}
              end
          end
      end
  end.

(** * Vocabulary of the properties *)

(** The encrypted value carries one of Chrome's two version markers. *)
Definition v1x_prefixed (e : list byte) : Prop :=
  firstn 3 e = Bytes.of_string "v10" \/ firstn 3 e = Bytes.of_string "v11".

(** The value of [domain] after a cookie has been emitted. *)
Definition emitted_domain (cookie : Cookie) : string :=
  if startswith (name cookie) "__Host-"
  then lstrip (host_key cookie) "."
  else if startswith (host_key cookie) "."
       then host_key cookie
       else ("." ++ host_key cookie)%string.

(** [e] is the [cookie_dict] built from [cookie] and its decrypted value. *)
Record emitted_from (password : string) (cookie : Cookie) (e : Entry.t)
  : Prop := {
  from_value : decrypted cookie password = Ok (Entry.value e);
  from_truthy : truthy (Entry.value e) = true;
  from_name : Entry.name e = name cookie;
  from_domain : Entry.domain e = emitted_domain cookie;
  from_path : Entry.path e = path cookie;
  from_httpOnly : Entry.httpOnly e = bool_of_int (is_httponly cookie);
  from_secure : Entry.secure e = bool_of_int (is_secure cookie);
  from_sameSite : sameSite_of (same_site cookie) = Ok (Entry.sameSite e);
  from_expires :
    if (0 <? expires cookie)%Z
    then exists seconds, unix_seconds (expires cookie) = Ok seconds
                         /\ Entry.expires e = Some seconds
    else Entry.expires e = None
}.

(** The filter kept by [main]: [not any(...)]. *)
Definition kept (domains_queried : list string) (stored : list Entry.t)
  : list Entry.t :=
  filter (fun c => negb (stale domains_queried c)) stored.

(** The eviction rule in the words of the specification: the stored
    domain, with any leading dot removed, is a suffix of (or equal to) one
    of the variants with its leading dot removed. *)
Definition stale_by_claim (domains_queried : list string) (c : Entry.t)
  : bool :=
  existsb (fun d => endswith (lstrip d ".") (lstrip (Entry.domain c) "."))
          domains_queried.

(** The combination that identifies a stored cookie. *)
Definition key (e : Entry.t) : string * string * string :=
  (Entry.name e, Entry.domain e, Entry.path e).

(** What [main] prints on success. *)
Definition success_messages (count : nat) (domain : string) : list string :=
  [("✓ Extracted " ++ str_of_nat count ++ " cookies for " ++ domain)%string;
   "✓ Updated storage.json";
   (newline
      ++ "You can now restart Claude Code and use Playwright to navigate to https://"
      ++ domain)%string].

(** "dividing the raw expiry by 1,000,000 and subtracting 11,644,473,600",
    read in integer arithmetic. *)
Definition seconds_by_quotient (raw : Z) : Z :=
  (raw / 1000000 - 11644473600)%Z.

(** A [string] that stands for a Python [str]: it is the UTF-8 encoding of
    some text, so the lossy decoder gives it back. *)
Definition text (s : string) : Prop := UTF8.decode_ignore (UTF8.encode s) = s.

(** What follows each dot of [s]. *)
Fixpoint dot_suffixes (s : string) : list string :=
  match s with
  | EmptyString => []
  | String c s' =>
      if Ascii.eqb c "." then s' :: dot_suffixes s' else dot_suffixes s'
  end.

(** The number of dots of [s]. *)
Fixpoint dots (s : string) : nat :=
  match s with
  | EmptyString => 0
  | String c s' => if Ascii.eqb c "." then S (dots s') else dots s'
  end.

(** The cookie decrypts, and to a non-empty value. *)
Definition decrypts_nonempty (password : string) (cookie : Cookie) : bool :=
  match decrypted cookie password with
  | Ok v => truthy v
  | Raise _ => false
  end.

(** The encrypted column has a version marker and then something that is
    not a whole number of cipher blocks. *)
Definition misaligned (cookie : Cookie) : Prop :=
  value cookie = "" /\
  v1x_prefixed (encrypted cookie) /\
  ((List.length (encrypted cookie) - 3) mod 16 <> 0)%nat.

(** A component that [os.path.join] puts behind a slash and that leaves
    the path without a trailing slash. *)
Definition plain (c : string) : Prop :=
  truthy c = true /\ startswith c "/" = false /\ endswith c "/" = false.

(** The profile a run reads: the second argument, or Chrome's default. *)
Definition profile_of (rest : list string) : string :=
  match rest with p :: _ => p | [] => "Default" end.

(** The state a run starts from. *)
Definition state_read {Origin} (w : World Origin) : Storage.t Origin :=
  match storage_json w with
  | Some state => state
  | None => {| Storage.cookies := []; Storage.origins := [] |}
  end.

(** A run that stops before anything is written. *)
Definition stopped {Origin} (out err : list string) : Exit Origin :=
  {| status := 1; stdout := out; stderr := err; written := None |}.

(** The four strings of an entry are well-formed text. *)
Definition text_entry (e : Entry.t) : Prop :=
  text (Entry.name e) /\ text (Entry.value e) /\
  text (Entry.domain e) /\ text (Entry.path e).

(** * Example data *)

(** The key Chrome derives from the Safe Storage password "peanuts". *)
Definition example_key : list byte :=
  [xd9; xa0; x9d; x49; x9b; x4e; x1b; x74;
   x61; xf2; x8e; x67; x97; x2c; x6d; xbd].

(** PKCS7 padding, as Chrome applies it before encrypting. *)
Definition pkcs7 (data : list byte) : list byte :=
  let n := (16 - List.length data mod 16)%nat in
  data ++ repeat (Bytes.of_Z (Z.of_nat n)) n.

(** A value as Chrome stores it: the version marker, then the blocks
    encrypted under [example_key]. *)
Definition seal (blocks : list byte) : list byte :=
  Bytes.of_string "v10" ++ try_except (AES.cbc_encrypt example_key IV blocks) [].

(** A row whose value is in the encrypted column only. *)
Definition example_cookie (encrypted_value : list byte) : Cookie :=
  {| name := "session"; value := ""; domain := "example.com"; path := "/";
     encrypted := encrypted_value; expires := 13300000000000000;
     is_secure := 1; is_httponly := 1; same_site := 1;
     host_key := "example.com" |}.

(** The value ["abc123"] in the newer format (behind the SHA-256 of the
    host key), behind the digest of another host, and in the older format. *)
Definition sealed_with_domain_hash : list byte :=
  Eval vm_compute in
    seal (pkcs7 (SHA256.digest (UTF8.encode "example.com")
                   ++ Bytes.of_string "abc123")).

Definition sealed_with_foreign_hash : list byte :=
  Eval vm_compute in
    seal (pkcs7 (SHA256.digest (UTF8.encode "example.org")
                   ++ Bytes.of_string "abc123")).

Definition sealed_old_format : list byte :=
  Eval vm_compute in seal (pkcs7 (Bytes.of_string "abc123")).

(** Single blocks whose last bytes are not a PKCS7 padding, or announce a
    padding of length zero. *)
Definition block_ending_in_ff : list byte :=
  Bytes.of_string "abcdefghijklmno" ++ [xff].
Definition block_with_uneven_run : list byte :=
  Bytes.of_string "abcdefghijklm" ++ [x03; x02; x03].
Definition block_ending_in_00 : list byte :=
  Bytes.of_string "abcdefghijklmno" ++ [x00].

Definition sealed_ending_in_ff : list byte :=
  Eval vm_compute in seal block_ending_in_ff.
Definition sealed_with_uneven_run : list byte :=
  Eval vm_compute in seal block_with_uneven_run.
Definition sealed_ending_in_00 : list byte :=
  Eval vm_compute in seal block_ending_in_00.

(** Rows and entries with a plaintext value. *)
Definition cookie_with_plain_value (n v h : string) (raw_expires ss : Z)
  : Cookie :=
  {| name := n; value := v; domain := "example.com"; path := "/";
     encrypted := []; expires := raw_expires; is_secure := 1;
     is_httponly := 0; same_site := ss; host_key := h |}.

Definition two_plain_cookies : list Cookie :=
  [cookie_with_plain_value "__Host-id" "a" "..example.com" 0 1;
   cookie_with_plain_value "sid" "b" "example.com" 13300000000000000 2].

Definition entry_of_host_cookie : Entry.t :=
  {| Entry.name := "__Host-id"; Entry.value := "a";
     Entry.domain := "example.com"; Entry.path := "/";
     Entry.httpOnly := false; Entry.secure := true;
     Entry.sameSite := "Lax"; Entry.expires := None |}.

Definition entry_of_sid_cookie : Entry.t :=
  {| Entry.name := "sid"; Entry.value := "b";
     Entry.domain := ".example.com"; Entry.path := "/";
     Entry.httpOnly := false; Entry.secure := true;
     Entry.sameSite := "Strict"; Entry.expires := Some 1655526400%Z |}.

(** A raw expiry that no binary64 float holds: above 2^53 only even
    integers are representable. *)
Definition cookie_expiring_at_odd_microsecond : Cookie :=
  cookie_with_plain_value "sid" "b" "example.com" 13299999999999999 2.

(** Chrome stores -1 in [samesite] for a cookie that was set without the
    attribute. *)
Definition cookie_without_same_site_attribute : Cookie :=
  cookie_with_plain_value "sid" "b" "example.com" 13300000000000000 (-1).

Definition plain_row (n v h : string) : DbRow.t :=
  {| DbRow.name := Bytes.of_string n; DbRow.value := Bytes.of_string v;
     DbRow.host_key := Bytes.of_string h; DbRow.path := Bytes.of_string "/";
     DbRow.encrypted_value := []; DbRow.expires_utc := 0; DbRow.is_secure := 1;
     DbRow.is_httponly := 0; DbRow.samesite := 1 |}.

Definition plain_entry (n v d : string) : Entry.t :=
  {| Entry.name := n; Entry.value := v; Entry.domain := d; Entry.path := "/";
     Entry.httpOnly := false; Entry.secure := true; Entry.sameSite := "Lax";
     Entry.expires := None |}.

Definition storage_of (entries : list Entry.t) : Storage.t unit :=
  {| Storage.cookies := entries; Storage.origins := [] |}.

Definition github_table : list DbRow.t :=
  [plain_row "sid" "a" "github.com"; plain_row "sid" "b" ".github.com"].

Definition github_table_without_clash : list DbRow.t :=
  [plain_row "sid" "a" "github.com"; plain_row "lang" "en" ".github.com"].

Definition storage_with_subdomain_cookie : Storage.t unit :=
  storage_of [plain_entry "token" "t" ".api.github.com";
              plain_entry "lang" "en" ".example.org"].

(** A row whose encrypted value is cut off in the middle of a block, and
    the cookie [get_cookies] makes of it for ["github.com"]. *)
Definition truncated_row : DbRow.t :=
  {| DbRow.name := Bytes.of_string "sid"; DbRow.value := [];
     DbRow.host_key := Bytes.of_string "github.com";
     DbRow.path := Bytes.of_string "/";
     DbRow.encrypted_value := Bytes.of_string "v10" ++ Bytes.of_string "12345";
     DbRow.expires_utc := 0; DbRow.is_secure := 1; DbRow.is_httponly := 0;
     DbRow.samesite := 1 |}.

Definition truncated_cookie : Cookie :=
  {| name := "sid"; value := ""; domain := "github.com"; path := "/";
     encrypted := Bytes.of_string "v10" ++ Bytes.of_string "12345";
     expires := 0; is_secure := 1; is_httponly := 0; same_site := 1;
     host_key := "github.com" |}.

(** A row with a same-site value that the list of names does not reach,
    and its cookie. *)
Definition row_with_same_site_minus_four : DbRow.t :=
  {| DbRow.name := Bytes.of_string "sid"; DbRow.value := Bytes.of_string "a";
     DbRow.host_key := Bytes.of_string "github.com";
     DbRow.path := Bytes.of_string "/"; DbRow.encrypted_value := [];
     DbRow.expires_utc := 0; DbRow.is_secure := 1; DbRow.is_httponly := 0;
     DbRow.samesite := -4 |}.

Definition cookie_with_same_site_minus_four : Cookie :=
  {| name := "sid"; value := "a"; domain := "github.com"; path := "/";
     encrypted := []; expires := 0; is_secure := 1; is_httponly := 0;
     same_site := -4; host_key := "github.com" |}.

(** A Mac with one Chrome profile, and a run on it for ["github.com"]. *)
Definition chrome_of_ada (file : string) : option (list DbRow.t) :=
  if (file =? "/Users/ada/Library/Application Support/Google/Chrome/Default/Cookies")%string
  then Some github_table
  else None.

Definition run_of_ada (platform : string) (keychain : completed)
           (files : string -> option (list DbRow.t))
           (stored : option (Storage.t unit)) : World unit :=
  {| argv := ["./getcookie.py"; "github.com"]; system := platform;
     security := keychain; home := "/Users/ada"; databases := files;
     storage_json := stored |}.

(** A cookie with a value in the plaintext column. *)
Definition cookie_with_both_columns : Cookie :=
  {| name := "session"; value := "plain"; domain := "example.com";
     path := "/"; encrypted := sealed_with_domain_hash;
     expires := 0; is_secure := 1; is_httponly := 1; same_site := 1;
     host_key := "example.com" |}.

(** * Properties *)

(** ** Text *)

Section Text.

Lemma append_nil_r (s : string) : (s ++ "")%string = s.
Proof. induction s; simpl; congruence. Qed.

Lemma append_assoc (a b c : string) :
  ((a ++ b) ++ c)%string = (a ++ (b ++ c))%string.
Proof. induction a; simpl; congruence. Qed.

(** [s.endswith(p)] holds exactly when [p] closes [s]. *)
Lemma endswith_spec (s p : string) :
  endswith s p = true <-> exists pre, s = (pre ++ p)%string.
Proof.
  induction s as [|a s IH]; cbn [endswith].
  - rewrite orb_false_r, String.eqb_eq. split.
    + intros <-. now exists "".
    + intros [pre H]. destruct pre; simpl in H; [auto | discriminate].
  - rewrite orb_true_iff, String.eqb_eq, IH. split.
    + intros [<- | [pre ->]]; [now exists "" | now exists (String a pre)].
    + intros [[|b pre] H]; simpl in H.
      * now left.
      * right. exists pre. now inversion H.
Qed.

Lemma endswith_refl (s : string) : endswith s s = true.
Proof. apply endswith_spec. now exists "". Qed.

Lemma endswith_append (pre s p : string) :
  endswith s p = true -> endswith (pre ++ s) p = true.
Proof.
  rewrite !endswith_spec. intros [q ->].
  exists (pre ++ q)%string. now rewrite append_assoc.
Qed.

(** [s.lstrip(chars)] is what remains of [s] behind the stripped
    characters. *)
Lemma lstrip_suffix (s chars : string) :
  exists pre, s = (pre ++ lstrip s chars)%string.
Proof.
  induction s as [|a s [pre IH]]; simpl.
  - now exists "".
  - destruct (char_in a chars).
    + exists (String a pre). simpl. now f_equal.
    + now exists "".
Qed.

Lemma endswith_lstrip (s chars : string) :
  endswith s (lstrip s chars) = true.
Proof. apply endswith_spec, lstrip_suffix. Qed.

Lemma startswith_dot (s : string) :
  startswith s "." = true <-> exists s', s = String "."%char s'.
Proof.
  destruct s as [|a s]; cbn [startswith].
  - split; [intros H; discriminate H | intros [s' H]; discriminate H].
  - rewrite andb_true_r, Ascii.eqb_eq. split.
    + intros ->. now exists s.
    + intros [s' H]. now inversion H.
Qed.

(** After [lstrip('.')] no leading dot is left. *)
Lemma lstrip_dot_no_lead (s : string) :
  startswith (lstrip s ".") "." = false.
Proof.
  induction s as [|a s IH]; cbn [lstrip char_in]; [reflexivity |].
  rewrite orb_false_r.
  destruct (Ascii.eqb_spec a "."%char) as [-> | Hne]; [exact IH |].
  cbn [startswith]. rewrite andb_true_r. now apply Ascii.eqb_neq.
Qed.

End Text.

(** ** Control flow *)

Section ControlFlow.

Lemma in_zrange (a b i : Z) : In i (zrange a b) <-> (a <= i < b)%Z.
Proof.
  unfold zrange. rewrite in_map_iff. split.
  - intros [k [<- Hk]]. apply in_seq in Hk. lia.
  - intros H. exists (Z.to_nat (i - a)). split; [lia |].
    apply in_seq. lia.
Qed.

(** A loop whose body raises at some element raises. *)
Lemma for_each_raises {A} (xs : list A) (body : A -> result unit) (x : A) :
  In x xs -> (exists e, body x = Raise e) ->
  exists e, for_each xs body = Raise e.
Proof.
  induction xs as [|y xs IH]; intros Hin Hx; [destruct Hin |].
  cbn [for_each]. destruct (body y) as [u | e] eqn:Hy.
  - destruct Hin as [-> | Hin]; [| now apply IH].
    destruct Hx as [e He]. congruence.
  - now exists e.
Qed.

End ControlFlow.

(** ** Byte strings *)

Section ByteStrings.

Lemma bytes_eqb_eq (a b : list byte) : Bytes.eqb a b = true <-> a = b.
Proof.
  revert b. induction a as [|x a IH]; intros [|y b]; cbn [Bytes.eqb];
    try (split; [intros H; discriminate H | intros H; discriminate H]).
  - split; reflexivity.
  - rewrite andb_true_iff, IH. split.
    + intros [Hxy ->]. f_equal. now apply Byte.byte_dec_bl.
    + intros H. inversion H. split; [now apply Byte.byte_dec_lb | reflexivity].
Qed.

Lemma bytes_eqb_neq (a b : list byte) : Bytes.eqb a b = false <-> a <> b.
Proof.
  rewrite <- bytes_eqb_eq. destruct (Bytes.eqb a b); split; congruence.
Qed.

End ByteStrings.

(** ** Padding removal *)

Section Unpad.

Variable data : list byte.
Variable padding : Z.
Hypothesis Hlast : index (map Bytes.to_Z data) (-1) = Ok padding.

(** A declared padding length of zero passes the check, and the slice
    [data[:-0]] is [data[:0]]. *)
Lemma unpad_zero : padding = 0%Z -> _unpad data = Ok [].
Proof.
  intros ->. unfold _unpad. rewrite Hlast. cbn [bind].
  change (16 <? 0)%Z with false. cbv iota.
  change (zrange 1 (0 + 1)) with (@nil Z). cbn [for_each bind].
  unfold slice_to. change (- 0 <? 0)%Z with false. cbv iota.
  rewrite Z.min_l by lia. reflexivity.
Qed.

Lemma unpad_too_long : (16 < padding)%Z -> exists e, _unpad data = Raise e.
Proof.
  intros H. unfold _unpad. rewrite Hlast. cbn [bind].
  apply Z.ltb_lt in H. rewrite H. eauto.
Qed.

Lemma unpad_mismatch (i : Z) :
  (1 <= i <= padding)%Z ->
  index (map Bytes.to_Z data) (- i) <> Ok padding ->
  exists e, _unpad data = Raise e.
Proof.
  intros Hi Hne. unfold _unpad. rewrite Hlast. cbn [bind].
  destruct (16 <? padding)%Z; [eauto |].
  match goal with
  | |- context [for_each ?xs ?body] =>
      destruct (for_each_raises xs body i) as [e He]
  end.
  - apply in_zrange. lia.
  - cbv beta. destruct (index (map Bytes.to_Z data) (- i)) as [b | e] eqn:Hb.
    + cbn [bind]. destruct (Z.eqb_spec b padding) as [-> | Hbp].
      * now contradiction Hne.
      * cbn [negb]. eauto.
    + cbn [bind]. eauto.
  - rewrite He. cbn [bind]. eauto.
Qed.

End Unpad.

(** ** Decryption *)

Section Decryption.

Variable self : Cookie.
Variable password : string.
Variable block : list byte.

Hypothesis Hvalue : value self = "".
Hypothesis Hprefix : v1x_prefixed (encrypted self).
Hypothesis Hblock :
  AES.cbc_decrypt (KDF.PBKDF2 (UTF8.encode password) SALT LENGTH ITERATIONS)
                  IV (skipn 3 (encrypted self)) = Ok block.

Lemma v1x_prefix_test :
  existsb (Bytes.eqb (firstn 3 (encrypted self)))
          [Bytes.of_string "v10"; Bytes.of_string "v11"] = true.
Proof.
  cbn [existsb]. destruct Hprefix as [-> | ->].
  - reflexivity.
  - apply orb_true_iff. right. reflexivity.
Qed.

(** The path of [decrypted] through the cipher. *)
Lemma decrypted_v1x :
  decrypted self password =
  Ok (strip_domain_hash (host_key self) (try_except (_unpad block) block)).
Proof.
  unfold decrypted. rewrite Hvalue. cbn [truthy]. cbv zeta.
  rewrite v1x_prefix_test, Hblock. cbn [bind].
  destruct (encrypted self) eqn:E; [| reflexivity].
  destruct Hprefix as [H | H]; try rewrite E in H; discriminate H.
Qed.

End Decryption.

(** ** The lossy decoder *)

Section Decoder.

Import UTF8.

Lemma well_formed_part_cons (b1 : byte) (t1 : list byte) :
  well_formed_part (b1 :: t1) =
  let lead := Bytes.to_Z b1 in
  if (lead <? 128)%Z then b1 :: well_formed_part t1
  else if ((lead <? 194) || (245 <=? lead))%Z then well_formed_part t1
  else
    match t1 with
    | [] => []
    | b2 :: t2 =>
        if negb (second_ok lead (Bytes.to_Z b2)) then well_formed_part t1
        else if (lead <? 224)%Z then b1 :: b2 :: well_formed_part t2
        else
          match t2 with
          | [] => []
          | b3 :: t3 =>
              if negb (is_continuation (Bytes.to_Z b3))
              then well_formed_part t2
              else if (lead <? 240)%Z
              then b1 :: b2 :: b3 :: well_formed_part t3
              else
                match t3 with
                | [] => []
                | b4 :: t4 =>
                    if negb (is_continuation (Bytes.to_Z b4))
                    then well_formed_part t3
                    else b1 :: b2 :: b3 :: b4 :: well_formed_part t4
                end
          end
    end.
Proof. reflexivity. Qed.

Lemma strong_list_ind {A} (P : list A -> Prop) :
  (forall l, (forall l', (List.length l' < List.length l)%nat -> P l') -> P l) ->
  forall l, P l.
Proof.
  intros step l.
  assert (H : forall n l, (List.length l < n)%nat -> P l).
  { induction n as [|n IH]; intros l' Hl; [lia |].
    apply step. intros l'' Hl''. apply IH. lia. }
  apply (H (S (List.length l))). lia.
Qed.

(** The decoder only ever drops bytes. *)
Lemma well_formed_part_length (data : list byte) :
  (List.length (well_formed_part data) <= List.length data)%nat.
Proof.
  induction data as [data IH] using strong_list_ind.
  destruct data as [|b1 t1]; [apply Nat.le_refl |].
  rewrite well_formed_part_cons. cbv zeta.
  pose proof (IH t1) as H1.
  destruct (Bytes.to_Z b1 <? 128)%Z; [cbn [List.length] in *; lia |].
  destruct ((Bytes.to_Z b1 <? 194) || (245 <=? Bytes.to_Z b1))%Z;
    [cbn [List.length] in *; lia |].
  destruct t1 as [|b2 t2]; [cbn; lia |]. pose proof (IH t2) as H2.
  destruct (negb (second_ok (Bytes.to_Z b1) (Bytes.to_Z b2)));
    [cbn [List.length] in *; lia |].
  destruct (Bytes.to_Z b1 <? 224)%Z; [cbn [List.length] in *; lia |].
  destruct t2 as [|b3 t3]; [cbn; lia |]. pose proof (IH t3) as H3.
  destruct (negb (is_continuation (Bytes.to_Z b3)));
    [cbn [List.length] in *; lia |].
  destruct (Bytes.to_Z b1 <? 240)%Z; [cbn [List.length] in *; lia |].
  destruct t3 as [|b4 t4]; [cbn; lia |]. pose proof (IH t4) as H4.
  destruct (negb (is_continuation (Bytes.to_Z b4)));
    cbn [List.length] in *; lia.
Qed.

(** A result with more bytes than its input is absurd. *)
Ltac dropped H :=
  exfalso; apply (f_equal (@List.length byte)) in H;
  match type of H with
  | List.length (well_formed_part ?t) = _ =>
      pose proof (well_formed_part_length t)
  end;
  cbn [List.length] in *; lia.

Lemma continuation_not_dot (b : byte) :
  is_continuation (Bytes.to_Z b) = true -> b <> x2e.
Proof. intros H ->. discriminate H. Qed.

Lemma second_ok_continuation (lead b2 : Z) :
  second_ok lead b2 = true -> is_continuation b2 = true.
Proof. unfold second_ok. intros H. now apply andb_true_iff in H. Qed.

(** In well-formed data, what follows a dot is well-formed: a dot is
    never inside a multi-byte sequence. *)
Lemma well_formed_after_dot (data : list byte) :
  well_formed_part data = data ->
  forall pre suf, data = pre ++ x2e :: suf -> well_formed_part suf = suf.
Proof.
  induction data as [data IH] using strong_list_ind.
  intros Hfix pre suf Hsplit.
  destruct data as [|b1 t1]; [destruct pre; discriminate Hsplit |].
  rewrite well_formed_part_cons in Hfix. cbv zeta in Hfix.
  destruct (Bytes.to_Z b1 <? 128)%Z eqn:Hascii.
  { injection Hfix as Hfix.
    destruct pre as [|p pre]; cbn [app] in Hsplit; injection Hsplit as -> ->.
    - exact Hfix.
    - apply (IH (pre ++ x2e :: suf)) with (pre := pre);
        [cbn [List.length]; lia | exact Hfix | reflexivity]. }
  assert (Hb1 : b1 <> x2e) by (intros ->; discriminate Hascii).
  destruct pre as [|p pre]; cbn [app] in Hsplit; injection Hsplit as -> Ht1;
    [contradiction Hb1; reflexivity |].
  destruct ((Bytes.to_Z p <? 194) || (245 <=? Bytes.to_Z p))%Z;
    [dropped Hfix |].
  destruct t1 as [|b2 t2]; [discriminate Hfix |].
  destruct (second_ok (Bytes.to_Z p) (Bytes.to_Z b2)) eqn:H2; cbn [negb] in Hfix;
    [| dropped Hfix].
  apply second_ok_continuation, continuation_not_dot in H2.
  destruct pre as [|p2 pre]; cbn [app] in Ht1; injection Ht1 as -> Ht2;
    [contradiction H2; reflexivity |].
  destruct (Bytes.to_Z p <? 224)%Z.
  { injection Hfix as Hfix.
    apply (IH t2) with (pre := pre);
      [cbn [List.length]; lia | exact Hfix | exact Ht2]. }
  destruct t2 as [|b3 t3]; [discriminate Hfix |].
  destruct (is_continuation (Bytes.to_Z b3)) eqn:H3; cbn [negb] in Hfix;
    [| dropped Hfix].
  apply continuation_not_dot in H3.
  destruct pre as [|p3 pre]; cbn [app] in Ht2; injection Ht2 as -> Ht3;
    [contradiction H3; reflexivity |].
  destruct (Bytes.to_Z p <? 240)%Z.
  { injection Hfix as Hfix.
    apply (IH t3) with (pre := pre);
      [cbn [List.length]; lia | exact Hfix | exact Ht3]. }
  destruct t3 as [|b4 t4]; [discriminate Hfix |].
  destruct (is_continuation (Bytes.to_Z b4)) eqn:H4; cbn [negb] in Hfix;
    [| dropped Hfix].
  apply continuation_not_dot in H4.
  destruct pre as [|p4 pre]; cbn [app] in Ht3; injection Ht3 as -> Ht4;
    [contradiction H4; reflexivity |].
  injection Hfix as Hfix.
  apply (IH t4) with (pre := pre);
    [cbn [List.length]; lia | exact Hfix | exact Ht4].
Qed.

End Decoder.

Section TextLemmas.

Lemma encode_cons (c : ascii) (s : string) :
  UTF8.encode (String c s) = byte_of_ascii c :: UTF8.encode s.
Proof. reflexivity. Qed.

Lemma encode_append (s t : string) :
  UTF8.encode (s ++ t)%string = UTF8.encode s ++ UTF8.encode t.
Proof.
  induction s as [|c s IH]; [reflexivity |].
  cbn [String.append]. rewrite !encode_cons, IH. reflexivity.
Qed.

Lemma text_iff (s : string) :
  text s <-> UTF8.well_formed_part (UTF8.encode s) = UTF8.encode s.
Proof.
  unfold text, UTF8.decode_ignore, UTF8.encode, Bytes.to_string,
    Bytes.of_string.
  split; intros H.
  - rewrite <- H at 2. now rewrite list_byte_of_string_of_list_byte.
  - rewrite H. apply string_of_list_byte_of_string.
Qed.

Lemma text_dot (s : string) : text s <-> text (String "." s).
Proof.
  rewrite !text_iff, encode_cons, well_formed_part_cons.
  change (byte_of_ascii ".") with x2e. cbv zeta.
  change (Bytes.to_Z x2e <? 128)%Z with true. cbv iota.
  split; [intros ->; reflexivity | intros H; now injection H].
Qed.

Lemma text_after_dot (pre suf : string) :
  text (pre ++ String "." suf) -> text suf.
Proof.
  rewrite !text_iff, encode_append, encode_cons.
  change (byte_of_ascii ".") with x2e. intros H.
  now apply well_formed_after_dot with (2 := eq_refl) in H.
Qed.

Lemma dot_suffixes_spec (s t : string) :
  In t (dot_suffixes s) -> exists pre, s = (pre ++ String "." t)%string.
Proof.
  induction s as [|c s IH]; cbn [dot_suffixes]; [intros [] |].
  destruct (Ascii.eqb_spec c ".") as [-> | Hc].
  - intros [-> | H]; [now exists "" |].
    destruct (IH H) as [pre ->]. now exists (String "." pre).
  - intros H. destruct (IH H) as [pre ->]. now exists (String c pre).
Qed.

Lemma text_dot_suffixes (s : string) :
  text s -> Forall text (dot_suffixes s).
Proof.
  intros Hs. apply Forall_forall. intros t Ht.
  apply dot_suffixes_spec in Ht. destruct Ht as [pre ->].
  now apply text_after_dot in Hs.
Qed.

End TextLemmas.

(** ** split and join *)

Section SplitJoin.

Lemma split_nonempty (s : string) (sep : ascii) : split s sep <> [].
Proof.
  destruct s as [|c s]; cbn [split]; [discriminate |].
  destruct (Ascii.eqb c sep); [discriminate |].
  destruct (split s sep); discriminate.
Qed.

Lemma join_cons (sep p : string) (ps : list string) :
  ps <> [] -> join sep (p :: ps) = (p ++ sep ++ join sep ps)%string.
Proof. destruct ps; [congruence | reflexivity]. Qed.

(** Joining the parts with the separator gives the string back. *)
Lemma join_split (s : string) :
  join "." (split s ".") = s.
Proof.
  induction s as [|c s IH]; [reflexivity |]. cbn [split].
  pose proof (split_nonempty s ".") as Hne.
  destruct (Ascii.eqb_spec c ".") as [-> | Hc].
  - rewrite join_cons by exact Hne. rewrite IH. reflexivity.
  - destruct (split s ".") as [|p ps]; [congruence |].
    destruct ps as [|q ps].
    + cbn in IH |- *. now rewrite IH.
    + rewrite join_cons in IH |- * by discriminate.
      cbn [String.append] in IH |- *. now rewrite IH.
Qed.

Lemma map_seq_shift {A} (f : nat -> A) (a n : nat) :
  map f (seq (S a) n) = map (fun i => f (S i)) (seq a n).
Proof. rewrite <- seq_shift, map_map. reflexivity. Qed.

(** The parents built by the loop over [range(1, len(parts))] are what
    follows each dot of the domain. *)
Lemma parents_are_dot_suffixes (s : string) :
  map (fun i => join "." (skipn i (split s ".")))
      (range 1 (List.length (split s ".")))
  = dot_suffixes s.
Proof.
  unfold range. induction s as [|c s IH]; [reflexivity |].
  cbn [split dot_suffixes].
  pose proof (split_nonempty s ".") as Hne.
  destruct (Ascii.eqb c ".").
  - cbn [List.length]. rewrite Nat.sub_succ, Nat.sub_0_r.
    rewrite map_seq_shift. cbn [skipn].
    destruct (split s ".") as [|p ps] eqn:Hsplit; [congruence |].
    cbn [List.length seq map skipn]. rewrite <- Hsplit at 1.
    rewrite join_split. f_equal.
    cbn [List.length] in IH. rewrite Nat.sub_succ, Nat.sub_0_r in IH.
    exact IH.
  - destruct (split s ".") as [|p ps] eqn:Hsplit; [congruence |].
    cbn [List.length] in IH |- *. rewrite <- IH.
    rewrite !map_seq_shift. reflexivity.
Qed.

Lemma fold_left_snoc {A B} (f : B -> A) (l : list B) (q : list A) :
  fold_left (fun q i => q ++ [f i]) l q = q ++ map f l.
Proof.
  revert q. induction l as [|x l IH]; intros q; cbn [fold_left map].
  - now rewrite app_nil_r.
  - rewrite IH, <- app_assoc. reflexivity.
Qed.

Lemma dot_suffixes_no_dot (s : string) :
  char_in "." s = false -> dot_suffixes s = [].
Proof.
  induction s as [|c s IH]; [reflexivity |]. cbn [char_in dot_suffixes].
  rewrite Ascii.eqb_sym. destruct (Ascii.eqb c "."); [discriminate |].
  exact IH.
Qed.

End SplitJoin.

(** The variants queried for a domain: the domain, the domain behind a
    dot, and a dot before whatever follows each dot of the domain; a
    domain that starts with a dot is queried alone. *)
Lemma domains_to_query_shape (domain : string) :
  domains_to_query domain =
  if startswith domain "." then [domain]
  else [domain; ("." ++ domain)%string]
         ++ map (fun t => ("." ++ t)%string) (dot_suffixes domain).
Proof.
  unfold domains_to_query.
  destruct (startswith domain ".") eqn:Hdot; cbn [negb].
  - rewrite andb_false_r. reflexivity.
  - rewrite andb_true_r. destruct (char_in "." domain) eqn:Hin.
    + rewrite (fold_left_snoc
                 (fun i => ("." ++ join "." (skipn i (split domain ".")))%string)).
      rewrite <- parents_are_dot_suffixes, map_map. reflexivity.
    + rewrite dot_suffixes_no_dot by exact Hin. reflexivity.
Qed.

(** Every queried variant of a well-formed domain is well-formed text. *)
Lemma domains_to_query_text (domain : string) :
  text domain -> Forall text (domains_to_query domain).
Proof.
  intros Hd. rewrite domains_to_query_shape.
  destruct (startswith domain "."); [now constructor |].
  constructor; [exact Hd |].
  constructor; [now apply (proj1 (text_dot domain)) |].
  apply Forall_forall. intros d Hin. apply in_map_iff in Hin.
  destruct Hin as [t [<- Ht]]. apply (proj1 (text_dot t)).
  pose proof (text_dot_suffixes domain Hd) as Hall.
  rewrite Forall_forall in Hall. now apply Hall.
Qed.

(** ** The conversion loop *)

Lemma last_default {A} (l : list A) (x d d' : A) :
  last (x :: l) d = last (x :: l) d'.
Proof.
  revert x. induction l as [|y l IH]; intros x; [reflexivity |].
  change (last (y :: l) d = last (y :: l) d'). apply IH.
Qed.

Section Loop.

Variable password : string.

(** What one turn of the loop does to [new_cookies] and [domain]. *)
Lemma convert_inv (new_cookies : list Entry.t) (shown : string)
      (cookie : Cookie) (new_cookies' : list Entry.t) (shown' : string) :
  convert password (new_cookies, shown) cookie = Ok (new_cookies', shown') ->
  (decrypted cookie password = Ok "" /\
   new_cookies' = new_cookies /\ shown' = shown)
  \/ exists e, emitted_from password cookie e /\
               new_cookies' = new_cookies ++ [e] /\
               shown' = Entry.domain e.
Proof.
  unfold convert.
  destruct (decrypted cookie password) as [v | err] eqn:Hv; cbn [bind];
    [| intros H; discriminate H].
  destruct (truthy v) eqn:Htruthy.
  - destruct (sameSite_of (same_site cookie)) as [ss | err] eqn:Hss;
      cbn [bind]; [| intros H; discriminate H].
    destruct (0 <? expires cookie)%Z eqn:Hexp.
    + destruct (unix_seconds (expires cookie)) as [secs | err] eqn:Hsecs;
        cbn [bind]; [| intros H; discriminate H].
      intros H. injection H as <- <-. right. eexists. split; [| split; reflexivity].
      constructor; cbn; try reflexivity; try assumption.
      rewrite Hexp. eauto.
    + intros H. injection H as <- <-. right. eexists. split; [| split; reflexivity].
      constructor; cbn; try reflexivity; try assumption.
      now rewrite Hexp.
  - intros H. injection H as <- <-. left.
    destruct v; [auto | discriminate Htruthy].
Qed.

(** The loop appends the entries of the cookies it emits, and leaves in
    [domain] the domain of the last one. *)
Lemma convert_all_inv (cookies : list Cookie) :
  forall (new_cookies : list Entry.t) (shown : string)
         (new_cookies' : list Entry.t) (shown' : string),
  convert_all password (new_cookies, shown) cookies
  = Ok (new_cookies', shown') ->
  exists emitted,
    new_cookies' = new_cookies ++ emitted /\
    Forall (fun e => exists cookie,
                In cookie cookies /\ emitted_from password cookie e) emitted /\
    shown' = last (map Entry.domain emitted) shown.
Proof.
  induction cookies as [|cookie rest IH]; intros acc shown acc' shown' H.
  - injection H as <- <-. exists []. rewrite app_nil_r. auto.
  - cbn [convert_all] in H.
    destruct (convert password (acc, shown) cookie) as [[acc1 shown1] | err]
      eqn:Hstep; cbn [bind] in H; [| discriminate H].
    apply IH in H. destruct H as [emitted [-> [Hall ->]]].
    assert (Hrest : Forall (fun e => exists c, In c (cookie :: rest)
                                    /\ emitted_from password c e) emitted).
    { eapply Forall_impl; [| exact Hall].
      intros e [c [Hc He]]. exists c. split; [now right | exact He]. }
    apply convert_inv in Hstep.
    destruct Hstep as [[_ [-> ->]] | [e [He [-> ->]]]].
    + exists emitted. auto.
    + exists (e :: emitted). rewrite <- app_assoc. split; [reflexivity |].
      split.
      * constructor; [| exact Hrest]. exists cookie. split; [now left | exact He].
      * cbn [map]. destruct emitted as [|e' emitted']; [reflexivity |].
        cbn [map]. change (last (Entry.domain e :: ?l) shown)
          with (last l shown). apply last_default.
Qed.

End Loop.

Lemma emitted_domain_host_prefix (cookie : Cookie) :
  startswith (name cookie) "__Host-" = true ->
  emitted_domain cookie = lstrip (host_key cookie) "." /\
  startswith (emitted_domain cookie) "." = false.
Proof.
  intros H. unfold emitted_domain. rewrite H.
  split; [reflexivity | apply lstrip_dot_no_lead].
Qed.

Lemma emitted_domain_other (cookie : Cookie) :
  startswith (name cookie) "__Host-" = false ->
  startswith (emitted_domain cookie) "." = true /\
  (emitted_domain cookie = host_key cookie \/
   (startswith (host_key cookie) "." = false /\
    emitted_domain cookie = ("." ++ host_key cookie)%string)).
Proof.
  intros H. unfold emitted_domain. rewrite H.
  destruct (startswith (host_key cookie) ".") eqn:Hdot.
  - split; [exact Hdot | now left].
  - split; [reflexivity | right; split; reflexivity].
Qed.

(** ** A run of main *)

Section Main.

Context {Origin : Type}.
Variables domain password : string.
Variable table : list DbRow.t.

Lemma main_eq (storage_state : Storage.t Origin) :
  main domain password table storage_state =
  match fst (get_cookies domain table) with
  | [] =>
      Failed [("Error: No cookies found for domain: " ++ domain)%string;
              ("Make sure you are logged into https://" ++ domain
                 ++ " in Chrome")%string]
  | _ :: _ =>
      match convert_all password ([], domain) (fst (get_cookies domain table))
      with
      | Raise e => Failed [("Error: " ++ str_of_exn e)%string]
      | Ok (new_cookies, shown) =>
          Saved {| Storage.cookies :=
                     kept (domains_to_query domain)
                          (Storage.cookies storage_state) ++ new_cookies;
                   Storage.origins := Storage.origins storage_state |}
                (success_messages (List.length new_cookies) shown)
      end
  end.
Proof.
  unfold main, get_cookies. cbv zeta. cbn [fst].
  match goal with |- context [filter ?f table] => generalize (filter f table) end.
  intros rows. destruct rows as [|row rows]; [reflexivity |].
  cbn [map].
  match goal with
  | |- context [convert_all password ([], domain) ?cs] =>
      destruct (convert_all password ([], domain) cs) as [[n s] | e]
  end; reflexivity.
Qed.

(** A successful run. *)
Lemma main_saved (storage_state storage_state' : Storage.t Origin)
      (stdout : list string) :
  main domain password table storage_state = Saved storage_state' stdout <->
  exists new_cookies shown,
    fst (get_cookies domain table) <> [] /\
    convert_all password ([], domain) (fst (get_cookies domain table))
    = Ok (new_cookies, shown) /\
    storage_state' =
      {| Storage.cookies :=
           kept (domains_to_query domain) (Storage.cookies storage_state)
           ++ new_cookies;
         Storage.origins := Storage.origins storage_state |} /\
    stdout = success_messages (List.length new_cookies) shown.
Proof.
  rewrite main_eq.
  destruct (fst (get_cookies domain table)) as [|c cs] eqn:Hcs.
  - split; [intros H; discriminate H | intros [n [s [H _]]]; congruence].
  - destruct (convert_all password ([], domain) (c :: cs))
      as [[n s] | e] eqn:Hloop.
    + split.
      * intros H. injection H as <- <-. exists n, s.
        repeat split; congruence.
      * intros [n' [s' [_ [H [-> ->]]]]]. injection H as <- <-. reflexivity.
    + split; [intros H; discriminate H |].
      intros [n' [s' [_ [H _]]]]. discriminate H.
Qed.

End Main.

(** ** Eviction *)

Section Eviction.

Variable domains_queried : list string.

(** The rule of the filter: a queried variant, with every leading dot
    removed, closes the stored domain as it is stored. *)
Lemma stale_spec (c : Entry.t) :
  stale domains_queried c = true <->
  exists d pre, In d domains_queried /\
                Entry.domain c = (pre ++ lstrip d ".")%string.
Proof.
  unfold stale. rewrite existsb_exists. split.
  - intros [d [Hd H]]. apply endswith_spec in H. destruct H as [pre H].
    now exists d, pre.
  - intros [d [pre [Hd H]]]. exists d. split; [exact Hd |].
    apply endswith_spec. now exists pre.
Qed.

Lemma kept_In (stored : list Entry.t) (c : Entry.t) :
  In c (kept domains_queried stored) <->
  In c stored /\ stale domains_queried c = false.
Proof.
  unfold kept. rewrite filter_In, negb_true_iff. reflexivity.
Qed.

Lemma kept_idempotent (stored : list Entry.t) :
  kept domains_queried (kept domains_queried stored)
  = kept domains_queried stored.
Proof.
  unfold kept. apply forallb_filter_id, forallb_filter.
Qed.

Lemma kept_none (entries : list Entry.t) :
  Forall (fun e => stale domains_queried e = true) entries ->
  kept domains_queried entries = [].
Proof.
  induction 1 as [|e entries He _ IH]; [reflexivity |].
  unfold kept in *. cbn [filter]. now rewrite He.
Qed.

(** A cookie read under one of the queried host keys is emitted under a
    domain that the filter removes. *)
Lemma emitted_domain_stale (cookie : Cookie) (e : Entry.t) :
  In (host_key cookie) domains_queried ->
  Entry.domain e = emitted_domain cookie ->
  stale domains_queried e = true.
Proof.
  intros Hin Hdomain. unfold stale. rewrite Hdomain. apply existsb_exists.
  exists (host_key cookie). split; [exact Hin |].
  unfold emitted_domain.
  destruct (startswith (name cookie) "__Host-").
  - apply endswith_refl.
  - destruct (startswith (host_key cookie) ".").
    + apply endswith_lstrip.
    + apply (endswith_append "."), endswith_lstrip.
Qed.

End Eviction.

(** Every cookie returned by [get_cookies] carries one of the queried
    variants as its host key. *)
Lemma get_cookies_host_key (domain : string) (table : list DbRow.t)
      (cookie : Cookie) :
  text domain ->
  In cookie (fst (get_cookies domain table)) ->
  In (host_key cookie) (domains_to_query domain).
Proof.
  intros Htext Hin. unfold get_cookies in Hin. cbn [fst] in Hin.
  apply in_map_iff in Hin. destruct Hin as [row [<- Hrow]].
  apply filter_In in Hrow. destruct Hrow as [_ Hwhere].
  unfold where_conditions in Hwhere. apply existsb_exists in Hwhere.
  destruct Hwhere as [d [Hd Heq]]. apply bytes_eqb_eq in Heq.
  pose proof (domains_to_query_text domain Htext) as Hall.
  rewrite Forall_forall in Hall. specialize (Hall d Hd).
  cbn [host_key]. rewrite Heq. unfold text in Hall. now rewrite Hall.
Qed.

(** ** Running the cipher on the examples *)

Lemma example_key_derivation :
  KDF.PBKDF2 (UTF8.encode "peanuts") SALT LENGTH ITERATIONS = example_key.
Proof. vm_compute. reflexivity. Qed.

Ltac run_cipher := rewrite example_key_derivation; vm_compute; reflexivity.

(** * The claims *)

(** ** C1: the variants of two example domains *)



(** ** C2: the eviction rule *)

(** The rule in the words of the claim fails on the variants of
    ["github.com"]: the stored domain [".api.github.com"], without its
    dot, is a suffix of none of them, and the filter removes the entry. *)
Lemma eviction_counterexample :
  ~ (forall domain stored c,
        In c stored ->
        (In c (kept (domains_to_query domain) stored)
         <-> stale_by_claim (domains_to_query domain) c = false)).
Proof.
  intros claim.
  specialize (claim "github.com"
                    [plain_entry "token" "t" ".api.github.com"]
                    (plain_entry "token" "t" ".api.github.com")
                    (or_introl eq_refl)).
  destruct claim as [_ claim].
  assert (H : In (plain_entry "token" "t" ".api.github.com") []).
  { apply claim. vm_compute. reflexivity. }
  destruct H.
Qed.

(** C2, amended.  A run that saves leaves the stored list filtered and
    followed by the fresh batch.  The filter removes an existing entry if
    and only if some queried variant, with every leading dot removed, is a
    suffix of (or equal to) the entry's domain as it is stored; the
    entries that do not match are kept unchanged and in order. *)
Theorem eviction_rule
        {Origin : Type} (domain password : string) (table : list DbRow.t)
        (storage_state storage_state' : Storage.t Origin)
        (stdout : list string) :
  main domain password table storage_state = Saved storage_state' stdout ->
  let domains_queried := domains_to_query domain in
  exists new_cookies shown,
    convert_all password ([], domain) (fst (get_cookies domain table))
    = Ok (new_cookies, shown) /\
    Storage.cookies storage_state'
    = filter (fun c => negb (stale domains_queried c))
             (Storage.cookies storage_state) ++ new_cookies /\
    forall c,
      In c (Storage.cookies storage_state) ->
      (~ In c (filter (fun c => negb (stale domains_queried c))
                      (Storage.cookies storage_state))
       <-> exists d pre, In d domains_queried /\
                         Entry.domain c = (pre ++ lstrip d ".")%string).
Proof.
  intros Hrun domains_queried. apply main_saved in Hrun.
  destruct Hrun as [new_cookies [shown [_ [Hloop [-> _]]]]].
  exists new_cookies, shown. split; [exact Hloop |]. split; [reflexivity |].
  intros c Hc. fold (kept domains_queried (Storage.cookies storage_state)).
  rewrite kept_In, <- stale_spec.
  destruct (stale domains_queried c); split; intros H.
  - reflexivity.
  - intros [_ H']. discriminate H'.
  - contradiction H. now split.
  - discriminate H.
Qed.

Lemma eviction_rule_witness :
  exists new_cookies shown,
    convert_all "peanuts" ([], "github.com")
                (fst (get_cookies "github.com" github_table))
    = Ok (new_cookies, shown) /\
    [plain_entry "lang" "en" ".example.org";
     plain_entry "sid" "a" ".github.com"; plain_entry "sid" "b" ".github.com"]
    = filter (fun c => negb (stale (domains_to_query "github.com") c))
             (Storage.cookies storage_with_subdomain_cookie) ++ new_cookies /\
    forall c,
      In c (Storage.cookies storage_with_subdomain_cookie) ->
      (~ In c (filter (fun c => negb (stale (domains_to_query "github.com") c))
                      (Storage.cookies storage_with_subdomain_cookie))
       <-> exists d pre, In d (domains_to_query "github.com") /\
                         Entry.domain c = (pre ++ lstrip d ".")%string).
Proof.
  apply (eviction_rule
           "github.com" "peanuts" github_table storage_with_subdomain_cookie
           (storage_of [plain_entry "lang" "en" ".example.org";
                        plain_entry "sid" "a" ".github.com";
                        plain_entry "sid" "b" ".github.com"])
           (success_messages 2 ".github.com")).
  vm_compute. reflexivity.
Defined.

(** ** C3: the sameSite string *)

(** From zero upwards the expression gives ["None"], ["Lax"], ["Strict"]
    and then ["None"] for every larger integer. *)
Lemma sameSite_of_natural (n : N) :
  sameSite_of (Z.of_N n)
  = Ok (match n with 1%N => "Lax" | 2%N => "Strict" | _ => "None" end).
Proof.
  unfold sameSite_of.
  destruct n as [|[p|p|]]; try reflexivity.
  - destruct p; reflexivity.
  - destruct p; reflexivity.
Qed.

(** C3, the code at negative integers.  The guard [same_site < 3] lets
    every negative integer through to the subscript, and a negative
    subscript counts from the end of the list: -1, the value Chrome stores
    for a cookie without the attribute, gives ["Strict"], -2 gives ["Lax"],
    -3 gives ["None"], and -4 raises [IndexError].  The last part runs the
    loop body on such a cookie. *)
Theorem sameSite_of_negative :
  sameSite_of (-1) = Ok "Strict"
  /\ sameSite_of (-2) = Ok "Lax"
  /\ sameSite_of (-3) = Ok "None"
  /\ sameSite_of (-4) = Raise (IndexError "list index out of range")
  /\ convert "peanuts" ([], "example.com") cookie_without_same_site_attribute
     = Ok ([entry_of_sid_cookie], ".example.com").
Proof.
  repeat (split; [vm_compute; reflexivity |]). vm_compute. reflexivity.
Qed.

(** ** C4: malformed padding *)

(** C4.  For every password and every v10/v11-prefixed encrypted value
    whose decrypted block ends in a byte greater than 16, or in which one
    of the trailing positions that this byte announces does not hold the
    same byte (or does not exist), [_unpad] raises and [decrypted] does
    not: it goes on with the raw decrypted block, nothing removed, through
    the domain-hash check and the lossy UTF-8 decoding.  [decrypted]
    returns a non-empty plaintext column before it looks at the encrypted
    one, so the statement is about cookies whose plaintext column is
    empty. *)
Theorem malformed_padding_falls_back
        (self : Cookie) (password : string) (block : list byte) (last : Z) :
  value self = "" ->
  v1x_prefixed (encrypted self) ->
  AES.cbc_decrypt (KDF.PBKDF2 (UTF8.encode password) SALT LENGTH ITERATIONS)
                  IV (skipn 3 (encrypted self)) = Ok block ->
  index (map Bytes.to_Z block) (-1) = Ok last ->
  ((16 < last)%Z \/
   exists i, (1 <= i <= last)%Z /\ index (map Bytes.to_Z block) (- i) <> Ok last) ->
  (exists e, _unpad block = Raise e) /\
  decrypted self password = Ok (strip_domain_hash (host_key self) block) /\
  ((List.length block < 32)%nat ->
   decrypted self password = Ok (UTF8.decode_ignore block)).
Proof.
  intros Hvalue Hprefix Hblock Hlast Hbad.
  assert (Hraise : exists e, _unpad block = Raise e).
  { destruct Hbad as [Hlong | [i [Hi Hne]]].
    - now apply unpad_too_long with (padding := last).
    - now apply unpad_mismatch with (padding := last) (i := i). }
  assert (Hdec : decrypted self password
                 = Ok (strip_domain_hash (host_key self) block)).
  { rewrite (decrypted_v1x self password block Hvalue Hprefix Hblock).
    destruct Hraise as [e ->]. reflexivity. }
  split; [exact Hraise | split; [exact Hdec |]].
  intros Hshort. rewrite Hdec. unfold strip_domain_hash.
  apply Nat.leb_gt in Hshort. now rewrite Hshort.
Qed.

Lemma malformed_padding_witness :
  decrypted (example_cookie sealed_ending_in_ff) "peanuts"
  = Ok "abcdefghijklmno"
  /\ decrypted (example_cookie sealed_with_uneven_run) "peanuts"
     = Ok (UTF8.decode_ignore block_with_uneven_run).
Proof.
  split.
  - destruct (malformed_padding_falls_back
                (example_cookie sealed_ending_in_ff) "peanuts"
                block_ending_in_ff 255) as [_ [_ H]].
    + reflexivity.
    + left. vm_compute. reflexivity.
    + run_cipher.
    + vm_compute. reflexivity.
    + left. lia.
    + rewrite H; [vm_compute; reflexivity | vm_compute; lia].
  - destruct (malformed_padding_falls_back
                (example_cookie sealed_with_uneven_run) "peanuts"
                block_with_uneven_run 3) as [_ [_ H]].
    + reflexivity.
    + left. vm_compute. reflexivity.
    + run_cipher.
    + vm_compute. reflexivity.
    + right. exists 2%Z. split; [lia | vm_compute; congruence].
    + apply H. vm_compute; lia.
Defined.

(** ** C5: the domain hash *)

(** C5.  For every v10/v11 cookie, with [plaintext] what is left once the
    padding has been dealt with: when [plaintext] has at least 32 bytes
    and its first 32 bytes are the SHA-256 digest of the UTF-8 encoded
    host key, the result is the lossy decoding of the bytes after them;
    when they differ, it is the decoding of the whole [plaintext]; and a
    [plaintext] shorter than 32 bytes is decoded whole. *)
Theorem domain_hash_check
        (self : Cookie) (password : string) (block : list byte) :
  value self = "" ->
  v1x_prefixed (encrypted self) ->
  AES.cbc_decrypt (KDF.PBKDF2 (UTF8.encode password) SALT LENGTH ITERATIONS)
                  IV (skipn 3 (encrypted self)) = Ok block ->
  let plaintext := try_except (_unpad block) block in
  let computed := SHA256.digest (UTF8.encode (host_key self)) in
  ((32 <= List.length plaintext)%nat -> firstn 32 plaintext = computed ->
   decrypted self password = Ok (UTF8.decode_ignore (skipn 32 plaintext))) /\
  ((32 <= List.length plaintext)%nat -> firstn 32 plaintext <> computed ->
   decrypted self password = Ok (UTF8.decode_ignore plaintext)) /\
  ((List.length plaintext < 32)%nat ->
   decrypted self password = Ok (UTF8.decode_ignore plaintext)).
Proof.
  intros Hvalue Hprefix Hblock plaintext computed.
  rewrite (decrypted_v1x self password block Hvalue Hprefix Hblock).
  fold plaintext. unfold strip_domain_hash. fold computed.
  split; [| split].
  - intros Hlen Hhash. apply Nat.leb_le in Hlen. rewrite Hlen.
    apply bytes_eqb_eq in Hhash. now rewrite Hhash.
  - intros Hlen Hhash. apply Nat.leb_le in Hlen. rewrite Hlen.
    apply bytes_eqb_neq in Hhash. now rewrite Hhash.
  - intros Hlen. apply Nat.leb_gt in Hlen. now rewrite Hlen.
Qed.

Lemma domain_hash_witness :
  decrypted (example_cookie sealed_with_domain_hash) "peanuts" = Ok "abc123"
  /\ decrypted (example_cookie sealed_with_foreign_hash) "peanuts"
     = Ok (UTF8.decode_ignore
             (SHA256.digest (UTF8.encode "example.org")
                ++ Bytes.of_string "abc123"))
  /\ decrypted (example_cookie sealed_old_format) "peanuts" = Ok "abc123".
Proof.
  split; [| split].
  - destruct (domain_hash_check
                (example_cookie sealed_with_domain_hash) "peanuts"
                (pkcs7 (SHA256.digest (UTF8.encode "example.com")
                          ++ Bytes.of_string "abc123")))
      as [H _]; [reflexivity | left; vm_compute; reflexivity | run_cipher |].
    rewrite H; [vm_compute; reflexivity | vm_compute; lia | vm_compute; reflexivity].
  - destruct (domain_hash_check
                (example_cookie sealed_with_foreign_hash) "peanuts"
                (pkcs7 (SHA256.digest (UTF8.encode "example.org")
                          ++ Bytes.of_string "abc123")))
      as [_ [H _]]; [reflexivity | left; vm_compute; reflexivity | run_cipher |].
    rewrite H; [vm_compute; reflexivity | vm_compute; lia | vm_compute; congruence].
  - destruct (domain_hash_check
                (example_cookie sealed_old_format) "peanuts"
                (pkcs7 (Bytes.of_string "abc123")))
      as [_ [_ H]]; [reflexivity | left; vm_compute; reflexivity | run_cipher |].
    rewrite H; [vm_compute; reflexivity | vm_compute; lia].
Defined.

(** ** C6: running twice *)

(** Two rows, a host-only cookie and a domain cookie of the same name and
    path, are stored under the same normalised domain; the list after two
    runs holds the combination twice. *)
Lemma rerun_counterexample :
  main "github.com" "peanuts" github_table (storage_of [])
  = Saved (storage_of [plain_entry "sid" "a" ".github.com";
                       plain_entry "sid" "b" ".github.com"])
          (success_messages 2 ".github.com")
  /\ main "github.com" "peanuts" github_table
          (storage_of [plain_entry "sid" "a" ".github.com";
                       plain_entry "sid" "b" ".github.com"])
     = Saved (storage_of [plain_entry "sid" "a" ".github.com";
                          plain_entry "sid" "b" ".github.com"])
             (success_messages 2 ".github.com")
  /\ ~ NoDup (map key [plain_entry "sid" "a" ".github.com";
                       plain_entry "sid" "b" ".github.com"]).
Proof.
  split; [vm_compute; reflexivity |]. split; [vm_compute; reflexivity |].
  intros H. inversion H as [|k ks Hnotin _]. apply Hnotin. now left.
Qed.

(** C6, amended.  For a domain that is well-formed text, a second run
    with the same rows gives back the state and the messages of the first:
    its filter removes every cookie the first run added, keeps what the
    first run kept, and the same fresh batch is appended.  The re-run adds
    no duplicate: the final list is free of repeated (name, domain, path)
    combinations whenever the surviving old entries and the fresh batch
    each are. *)
Theorem second_run_changes_nothing
        {Origin : Type} (domain password : string) (table : list DbRow.t)
        (storage_state storage_state' : Storage.t Origin)
        (stdout : list string) :
  text domain ->
  main domain password table storage_state = Saved storage_state' stdout ->
  let domains_queried := domains_to_query domain in
  let survivors :=
    filter (fun c => negb (stale domains_queried c))
           (Storage.cookies storage_state) in
  main domain password table storage_state' = Saved storage_state' stdout /\
  exists new_cookies,
    Storage.cookies storage_state' = survivors ++ new_cookies /\
    Forall (fun e => stale domains_queried e = true) new_cookies /\
    filter (fun c => negb (stale domains_queried c))
           (Storage.cookies storage_state') = survivors /\
    (NoDup (map key survivors) -> NoDup (map key new_cookies) ->
     NoDup (map key (Storage.cookies storage_state'))).
Proof.
  intros Hwf Hrun domains_queried survivors.
  apply main_saved in Hrun.
  destruct Hrun as [new_cookies [shown [Hsome [Hloop [-> ->]]]]].
  change (filter (fun c => negb (stale domains_queried c)))
    with (kept domains_queried) in *.
  change (domains_to_query domain) with domains_queried.
  change (kept domains_queried (Storage.cookies storage_state))
    with survivors.
  cbn [Storage.cookies Storage.origins].
  assert (Hstale : Forall (fun e => stale domains_queried e = true) new_cookies).
  { pose proof (convert_all_inv _ _ _ _ _ _ Hloop) as [emitted [-> [Hall _]]].
    cbn [app]. eapply Forall_impl; [| exact Hall].
    intros e [cookie [Hc He]].
    apply (emitted_domain_stale domains_queried cookie e).
    - now apply (get_cookies_host_key domain table).
    - apply (from_domain _ _ _ He). }
  assert (Hagain : kept domains_queried (survivors ++ new_cookies) = survivors).
  { unfold kept at 1. rewrite filter_app.
    change (filter (fun c => negb (stale domains_queried c)))
      with (kept domains_queried).
    unfold survivors. rewrite kept_idempotent, (kept_none _ _ Hstale).
    apply app_nil_r. }
  split.
  - apply main_saved. exists new_cookies, shown.
    split; [exact Hsome |]. split; [exact Hloop |]. split; [| reflexivity].
    cbn [Storage.cookies Storage.origins].
    change (domains_to_query domain) with domains_queried.
    now rewrite Hagain.
  - exists new_cookies.
    split; [reflexivity |]. split; [exact Hstale |]. split; [exact Hagain |].
    intros Hold Hnew. rewrite map_app. apply NoDup_app; [exact Hold | exact Hnew |].
    intros k Hk1 Hk2.
    apply in_map_iff in Hk1. destruct Hk1 as [c [<- Hc]].
    apply in_map_iff in Hk2. destruct Hk2 as [e [Hkey He]].
    apply kept_In in Hc. destruct Hc as [_ Hc].
    rewrite Forall_forall in Hstale. specialize (Hstale e He).
    assert (Hdom : Entry.domain e = Entry.domain c).
    { unfold key in Hkey. now inversion Hkey. }
    unfold stale in Hstale, Hc. rewrite Hdom in Hstale. congruence.
Qed.

Lemma second_run_witness :
  main "github.com" "peanuts" github_table_without_clash
       (storage_of [plain_entry "lang" "en" ".example.org";
                    plain_entry "sid" "a" ".github.com";
                    plain_entry "lang" "en" ".github.com"])
  = Saved (storage_of [plain_entry "lang" "en" ".example.org";
                       plain_entry "sid" "a" ".github.com";
                       plain_entry "lang" "en" ".github.com"])
          (success_messages 2 ".github.com")
  /\ NoDup (map key [plain_entry "lang" "en" ".example.org";
                     plain_entry "sid" "a" ".github.com";
                     plain_entry "lang" "en" ".github.com"]).
Proof.
  destruct (second_run_changes_nothing
              "github.com" "peanuts" github_table_without_clash
              storage_with_subdomain_cookie
              (storage_of [plain_entry "lang" "en" ".example.org";
                           plain_entry "sid" "a" ".github.com";
                           plain_entry "lang" "en" ".github.com"])
              (success_messages 2 ".github.com"))
    as [Hrun [new_cookies [Hcookies [_ [_ Hnodup]]]]].
  - vm_compute. reflexivity.
  - vm_compute. reflexivity.
  - split; [exact Hrun |].
    change (NoDup (map key (Storage.cookies
              (storage_of [plain_entry "lang" "en" ".example.org";
                           plain_entry "sid" "a" ".github.com";
                           plain_entry "lang" "en" ".github.com"])))).
    assert (Hnew : new_cookies = [plain_entry "sid" "a" ".github.com";
                                  plain_entry "lang" "en" ".github.com"]).
    { vm_compute in Hcookies. now injection Hcookies as <-. }
    apply Hnodup.
    + vm_compute. repeat constructor. intros [].
    + rewrite Hnew. vm_compute. repeat constructor; cbn; intuition discriminate.
Defined.

(** ** C7: the leading dot of the output domain *)

(** C7.  Every entry the loop emits comes from a cookie of the same name.
    If that name starts with ["__Host-"], the entry's domain is the host
    key with its leading dots stripped and has no leading dot; otherwise
    the entry's domain starts with a dot: it is the host key itself, or
    the host key behind a dot when the host key had none. *)
Theorem host_prefix_decides_leading_dot
        (password : string) (cookies : list Cookie) (domain : string)
        (new_cookies : list Entry.t) (domain' : string) (e : Entry.t) :
  convert_all password ([], domain) cookies = Ok (new_cookies, domain') ->
  In e new_cookies ->
  exists cookie,
    In cookie cookies /\ Entry.name e = name cookie /\
    (startswith (name cookie) "__Host-" = true ->
     startswith (Entry.domain e) "." = false /\
     Entry.domain e = lstrip (host_key cookie) ".") /\
    (startswith (name cookie) "__Host-" = false ->
     startswith (Entry.domain e) "." = true /\
     (Entry.domain e = host_key cookie \/
      (startswith (host_key cookie) "." = false /\
       Entry.domain e = ("." ++ host_key cookie)%string))).
Proof.
  intros Hloop Hin.
  apply convert_all_inv in Hloop. destruct Hloop as [emitted [-> [Hall _]]].
  cbn [app] in Hin. rewrite Forall_forall in Hall.
  destruct (Hall e Hin) as [cookie [Hc He]].
  exists cookie. split; [exact Hc |]. split; [apply (from_name _ _ _ He) |].
  rewrite (from_domain _ _ _ He). split; intros Hname.
  - destruct (emitted_domain_host_prefix cookie Hname). auto.
  - now apply emitted_domain_other.
Qed.

Lemma host_prefix_witness :
  (exists cookie,
      In cookie two_plain_cookies /\
      Entry.name entry_of_host_cookie = name cookie /\
      (startswith (name cookie) "__Host-" = true ->
       startswith (Entry.domain entry_of_host_cookie) "." = false /\
       Entry.domain entry_of_host_cookie = lstrip (host_key cookie) ".") /\
      (startswith (name cookie) "__Host-" = false ->
       startswith (Entry.domain entry_of_host_cookie) "." = true /\
       (Entry.domain entry_of_host_cookie = host_key cookie \/
        (startswith (host_key cookie) "." = false /\
         Entry.domain entry_of_host_cookie = ("." ++ host_key cookie)%string)))).
Proof.
  apply (host_prefix_decides_leading_dot
           "peanuts" two_plain_cookies "example.com"
           [entry_of_host_cookie; entry_of_sid_cookie] ".example.com").
  - vm_compute. reflexivity.
  - left. reflexivity.
Defined.

(** ** C8: the expires field *)

(** The code computes in binary64.  13299999999999999 is not
    representable and rounds to 13300000000000000, so the emitted value is
    one more than the integer quotient and exceeds the exact quotient;
    at 13300000000700000 the emitted value is the integer below the exact
    quotient although the integer above is nearer.  No rounding of the
    exact quotient gives both. *)
Lemma expires_is_not_the_integer_quotient :
  convert "peanuts" ([], "example.com") cookie_expiring_at_odd_microsecond
  = Ok ([entry_of_sid_cookie], ".example.com")
  /\ Entry.expires entry_of_sid_cookie = Some 1655526400%Z
  /\ seconds_by_quotient 13299999999999999 = 1655526399%Z
  /\ (13299999999999999 - 11644473600 * 1000000 < 1655526400 * 1000000)%Z
  /\ unix_seconds 13300000000700000 = Ok 1655526400%Z
  /\ (1655526401 * 1000000 - (13300000000700000 - 11644473600 * 1000000)
      < 13300000000700000 - 11644473600 * 1000000 - 1655526400 * 1000000)%Z.
Proof.
  split; [vm_compute; reflexivity |].
  split; [reflexivity |]. split; [reflexivity |]. split; [lia |].
  split; [vm_compute; reflexivity | lia].
Qed.

Lemma expires_counterexample :
  ~ (forall password state cookie new_cookies e shown,
        convert password state cookie = Ok (new_cookies ++ [e], shown) ->
        (0 < expires cookie)%Z ->
        Entry.expires e = Some (seconds_by_quotient (expires cookie))).
Proof.
  intros claim.
  specialize (claim "peanuts" ([], "example.com")
                    cookie_expiring_at_odd_microsecond
                    [] entry_of_sid_cookie ".example.com").
  assert (H : Entry.expires entry_of_sid_cookie
              = Some (seconds_by_quotient 13299999999999999)).
  { apply claim; [vm_compute; reflexivity | reflexivity]. }
  vm_compute in H. discriminate H.
Qed.

(** C8, amended.  Every entry the loop emits comes from a cookie of the
    same name; its [expires] field is present if and only if the raw
    expiry is greater than zero, and then holds the truncation toward zero
    of the binary64 value obtained by converting the raw expiry to a
    float, dividing by [1e6] and subtracting [11644473600]; a session
    cookie (raw expiry 0) has no such field; a raw expiry of
    13300000000000000 gives 1655526400, a positive number of seconds. *)
Theorem expires_field
        (password : string) (cookies : list Cookie) (domain : string)
        (new_cookies : list Entry.t) (domain' : string) (e : Entry.t) :
  convert_all password ([], domain) cookies = Ok (new_cookies, domain') ->
  In e new_cookies ->
  exists cookie,
    In cookie cookies /\ Entry.name e = name cookie /\
    (Entry.expires e <> None <-> (0 < expires cookie)%Z) /\
    ((0 < expires cookie)%Z ->
     exists seconds,
       Float.to_int
         (Float.sub (Float.div (Float.of_int (expires cookie))
                               (Float.of_int 1000000))
                    (Float.of_int 11644473600)) = Ok seconds /\
       Entry.expires e = Some seconds) /\
    (expires cookie = 0%Z -> Entry.expires e = None) /\
    (expires cookie = 13300000000000000%Z ->
     Entry.expires e = Some 1655526400%Z /\ (0 < 1655526400)%Z).
Proof.
  intros Hloop Hin.
  apply convert_all_inv in Hloop. destruct Hloop as [emitted [-> [Hall _]]].
  cbn [app] in Hin. rewrite Forall_forall in Hall.
  destruct (Hall e Hin) as [cookie [Hc He]].
  exists cookie. split; [exact Hc |]. split; [apply (from_name _ _ _ He) |].
  pose proof (from_expires _ _ _ He) as Hexp.
  destruct (Z.ltb_spec 0 (expires cookie)) as [Hpos | Hle].
  - destruct Hexp as [seconds [Hsec Hfield]].
    split; [| split; [| split]].
    + rewrite Hfield. split; [auto | discriminate].
    + intros _. exists seconds. split; [exact Hsec | exact Hfield].
    + intros Hz. lia.
    + intros Hraw. rewrite Hraw in Hsec. vm_compute in Hsec.
      injection Hsec as <-. split; [exact Hfield | lia].
  - split; [| split; [| split]].
    + rewrite Hexp. split; [congruence | lia].
    + intros Hpos. lia.
    + intros _. exact Hexp.
    + intros Hraw. lia.
Qed.

Lemma expires_field_witness :
  exists cookie,
    In cookie two_plain_cookies /\ Entry.name entry_of_sid_cookie = name cookie /\
    (Entry.expires entry_of_sid_cookie <> None <-> (0 < expires cookie)%Z) /\
    ((0 < expires cookie)%Z ->
     exists seconds,
       Float.to_int
         (Float.sub (Float.div (Float.of_int (expires cookie))
                               (Float.of_int 1000000))
                    (Float.of_int 11644473600)) = Ok seconds /\
       Entry.expires entry_of_sid_cookie = Some seconds) /\
    (expires cookie = 0%Z -> Entry.expires entry_of_sid_cookie = None) /\
    (expires cookie = 13300000000000000%Z ->
     Entry.expires entry_of_sid_cookie = Some 1655526400%Z /\ (0 < 1655526400)%Z).
Proof.
  apply (expires_field "peanuts" two_plain_cookies "example.com"
           [entry_of_host_cookie; entry_of_sid_cookie] ".example.com").
  - vm_compute. reflexivity.
  - right. left. reflexivity.
Defined.

(** ** C9: a block that ends in the byte 0 *)

(** C9.  For every v10/v11 cookie whose decrypted block ends in the byte
    0, [_unpad] succeeds, with declared padding length 0, and returns the
    empty byte string ([data[:-0]] is [data[:0]]); the cookie decrypts to
    the empty string, and the loop of [main] leaves [new_cookies] (and
    [domain]) as they were: the cookie is not emitted. *)
Theorem zero_padding_byte_empties_cookie
        (self : Cookie) (password : string) (block : list byte)
        (state : list Entry.t * string) :
  value self = "" ->
  v1x_prefixed (encrypted self) ->
  AES.cbc_decrypt (KDF.PBKDF2 (UTF8.encode password) SALT LENGTH ITERATIONS)
                  IV (skipn 3 (encrypted self)) = Ok block ->
  index (map Bytes.to_Z block) (-1) = Ok 0%Z ->
  _unpad block = Ok [] /\
  decrypted self password = Ok "" /\
  convert password state self = Ok state.
Proof.
  intros Hvalue Hprefix Hblock Hlast.
  assert (Hunpad : _unpad block = Ok []) by now apply unpad_zero with (padding := 0%Z).
  assert (Hdec : decrypted self password = Ok "").
  { rewrite (decrypted_v1x self password block Hvalue Hprefix Hblock).
    rewrite Hunpad. reflexivity. }
  split; [exact Hunpad | split; [exact Hdec |]].
  destruct state as [new_cookies shown]. unfold convert.
  rewrite Hdec. reflexivity.
Qed.

Lemma zero_padding_byte_witness :
  decrypted (example_cookie sealed_ending_in_00) "peanuts" = Ok ""
  /\ convert "peanuts" ([], "example.com") (example_cookie sealed_ending_in_00)
     = Ok ([], "example.com").
Proof.
  destruct (zero_padding_byte_empties_cookie
              (example_cookie sealed_ending_in_00) "peanuts"
              block_ending_in_00 ([], "example.com"))
    as [_ [H1 H2]];
    [reflexivity | left; vm_compute; reflexivity | run_cipher
     | vm_compute; reflexivity |].
  split; [exact H1 | exact H2].
Defined.

(** ** C10: the domain named in the success messages *)

(** C10.  When a run saves, the count line and the URL hint name the value
    left in the loop variable [domain]: the command-line argument if no
    cookie was emitted, and otherwise the normalised domain of the last
    emitted cookie.  That domain differs from the argument whenever the
    last emitted cookie is not a ["__Host-"] cookie and the argument has
    no leading dot. *)
Theorem success_messages_name_last_emitted_domain
        {Origin : Type} (domain password : string) (table : list DbRow.t)
        (storage_state storage_state' : Storage.t Origin)
        (stdout : list string) :
  main domain password table storage_state = Saved storage_state' stdout ->
  exists new_cookies shown,
    convert_all password ([], domain) (fst (get_cookies domain table))
    = Ok (new_cookies, shown) /\
    stdout =
      [("✓ Extracted " ++ str_of_nat (List.length new_cookies)
          ++ " cookies for " ++ shown)%string;
       "✓ Updated storage.json";
       (newline
          ++ "You can now restart Claude Code and use Playwright to navigate to https://"
          ++ shown)%string] /\
    (new_cookies = [] -> shown = domain) /\
    (forall earlier e,
        new_cookies = earlier ++ [e] ->
        shown = Entry.domain e /\
        (startswith (Entry.name e) "__Host-" = false ->
         startswith domain "." = false -> shown <> domain)).
Proof.
  intros Hrun. apply main_saved in Hrun.
  destruct Hrun as [new_cookies [shown [_ [Hloop [_ ->]]]]].
  exists new_cookies, shown. split; [exact Hloop |]. split; [reflexivity |].
  apply convert_all_inv in Hloop. destruct Hloop as [emitted [-> [Hall ->]]].
  cbn [app]. split.
  - intros ->. reflexivity.
  - intros earlier e ->. rewrite map_app. cbn [map]. rewrite last_last.
    split; [reflexivity |].
    intros Hname Hdomain Heq.
    rewrite Forall_forall in Hall.
    destruct (Hall e) as [cookie [_ He]]; [apply in_or_app; right; now left |].
    rewrite (from_name _ _ _ He) in Hname.
    destruct (emitted_domain_other cookie Hname) as [Hdot _].
    rewrite <- (from_domain _ _ _ He), Heq in Hdot. congruence.
Qed.

Lemma success_messages_witness :
  exists new_cookies shown,
    convert_all "peanuts" ([], "github.com")
                (fst (get_cookies "github.com" github_table))
    = Ok (new_cookies, shown) /\
    success_messages 2 ".github.com" =
      [("✓ Extracted " ++ str_of_nat (List.length new_cookies)
          ++ " cookies for " ++ shown)%string;
       "✓ Updated storage.json";
       (newline
          ++ "You can now restart Claude Code and use Playwright to navigate to https://"
          ++ shown)%string] /\
    (new_cookies = [] -> shown = "github.com") /\
    (forall earlier e,
        new_cookies = earlier ++ [e] ->
        shown = Entry.domain e /\
        (startswith (Entry.name e) "__Host-" = false ->
         startswith "github.com" "." = false -> shown <> "github.com")).
Proof.
  apply (success_messages_name_last_emitted_domain
           "github.com" "peanuts" github_table (storage_of [])
           (storage_of [plain_entry "sid" "a" ".github.com";
                        plain_entry "sid" "b" ".github.com"])).
  vm_compute. reflexivity.
Defined.

(** * Further properties *)

(** ** Bytes as integers *)

Section ByteValues.

Lemma to_Z_range (b : byte) : (0 <= Bytes.to_Z b < 256)%Z.
Proof.
  unfold Bytes.to_Z. pose proof (Byte.to_N_bounded b). lia.
Qed.

Lemma to_Z_of_Z (z : Z) : (0 <= z < 256)%Z -> Bytes.to_Z (Bytes.of_Z z) = z.
Proof.
  intros Hz. unfold Bytes.of_Z, Bytes.to_Z.
  rewrite Z.mod_small by exact Hz.
  destruct (Byte.of_N (Z.to_N z)) as [b |] eqn:Hb.
  - apply Byte.to_of_N in Hb. rewrite Hb. lia.
  - apply Byte.of_N_None_iff in Hb. lia.
Qed.

Lemma of_Z_to_Z (b : byte) : Bytes.of_Z (Bytes.to_Z b) = b.
Proof.
  unfold Bytes.of_Z, Bytes.to_Z. pose proof (Byte.to_N_bounded b) as Hb.
  rewrite Z.mod_small by lia. rewrite N2Z.id, Byte.of_to_N. reflexivity.
Qed.

End ByteValues.

(** ** Subscripts and loops *)

Section Subscripts.

Context {A : Type}.

(** A subscript from the end that stays inside the sequence. *)
Lemma subscript_from_end (msg : string) (l : list A) (i : Z) :
  (1 <= i <= Z.of_nat (List.length l))%Z ->
  subscript msg l (- i)
  = match nth_error l (List.length l - Z.to_nat i) with
    | Some a => Ok a
    | None => Raise (IndexError msg)
    end.
Proof.
  intros Hi. unfold subscript.
  replace (- i <? 0)%Z with true by (symmetry; apply Z.ltb_lt; lia).
  replace ((0 <=? - i + Z.of_nat (List.length l))
           && (- i + Z.of_nat (List.length l) <? Z.of_nat (List.length l)))%Z
    with true
    by (symmetry; apply andb_true_iff; split;
        [apply Z.leb_le | apply Z.ltb_lt]; lia).
  replace (Z.to_nat (- i + Z.of_nat (List.length l)))
    with (List.length l - Z.to_nat i)%nat by lia.
  reflexivity.
Qed.

(** A subscript from the end beyond the first element raises. *)
Lemma subscript_before_start (msg : string) (l : list A) (i : Z) :
  (Z.of_nat (List.length l) < i)%Z ->
  subscript msg l (- i) = Raise (IndexError msg).
Proof.
  intros Hi. unfold subscript.
  replace (- i <? 0)%Z with true by (symmetry; apply Z.ltb_lt; lia).
  replace (0 <=? - i + Z.of_nat (List.length l))%Z with false
    by (symmetry; apply Z.leb_gt; lia).
  reflexivity.
Qed.

Lemma subscript_ok_inv (msg : string) (l : list A) (i : Z) (a : A) :
  (1 <= i)%Z -> subscript msg l (- i) = Ok a ->
  (i <= Z.of_nat (List.length l))%Z /\
  nth_error l (List.length l - Z.to_nat i) = Some a.
Proof.
  intros Hi H.
  destruct (Z.le_gt_cases i (Z.of_nat (List.length l))) as [Hle | Hgt].
  - split; [exact Hle |]. rewrite subscript_from_end in H by lia.
    destruct (nth_error l (List.length l - Z.to_nat i));
      [now injection H as -> | discriminate H].
  - rewrite subscript_before_start in H by lia. discriminate H.
Qed.

Lemma for_each_ok (xs : list A) (body : A -> result unit) :
  for_each xs body = Ok tt <-> forall x, In x xs -> body x = Ok tt.
Proof.
  induction xs as [|y xs IH]; cbn [for_each].
  - split; [intros _ x [] | reflexivity].
  - destruct (body y) as [[] | e] eqn:Hy.
    + rewrite IH. split.
      * intros H x [<- | Hx]; [exact Hy | now apply H].
      * intros H x Hx. apply H. now right.
    + split; [intros H; discriminate H |].
      intros H. rewrite (H y (or_introl eq_refl)) in Hy. discriminate Hy.
Qed.

End Subscripts.

(** ** Padding removal, the good case *)

Section UnpadValid.

(** What [_unpad] checks, position by position. *)
Lemma unpad_ok_iff (data out : list byte) :
  _unpad data = Ok out <->
  exists padding,
    index (map Bytes.to_Z data) (-1) = Ok padding /\
    (padding <= 16)%Z /\
    (forall i, (1 <= i <= padding)%Z ->
               index (map Bytes.to_Z data) (- i) = Ok padding) /\
    out = slice_to data (- padding).
Proof.
  unfold _unpad.
  destruct (index (map Bytes.to_Z data) (-1)) as [padding | e] eqn:Hlast;
    cbn [bind].
  2: { split; [intros H; discriminate H |].
       intros [p [H _]]. discriminate H. }
  destruct (Z.ltb_spec 16 padding) as [Hlong | Hshort].
  { split; [intros H; discriminate H |].
    intros [p [H [Hp _]]]. injection H as <-. lia. }
  match goal with
  | |- context [for_each ?xs ?body] =>
      pose proof (for_each_ok xs body) as Hloop;
      destruct (for_each xs body) as [[] | e] eqn:Hrun
  end; cbn [bind].
  - assert (Hall : forall i, (1 <= i <= padding)%Z ->
                     index (map Bytes.to_Z data) (- i) = Ok padding).
    { intros i Hi.
      assert (Hin : In i (zrange 1 (padding + 1))).
      { apply in_map_iff. exists (Z.to_nat (i - 1)).
        split; [lia | apply in_seq; lia]. }
      pose proof (proj1 Hloop eq_refl i Hin) as Hbody. cbv beta in Hbody.
      destruct (index (map Bytes.to_Z data) (- i)) as [b | e];
        cbn [bind] in Hbody; [| discriminate Hbody].
      destruct (Z.eqb b padding) eqn:Heq; cbn [negb] in Hbody;
        [| discriminate Hbody].
      apply Z.eqb_eq in Heq. now rewrite Heq. }
    split.
    + intros H. injection H as <-. exists padding. auto.
    + intros [p [H [_ [_ ->]]]]. now injection H as <-.
  - split; [intros H; discriminate H |].
    intros [p [H [_ [Hall _]]]]. injection H as <-.
    assert (Hok : for_each (zrange 1 (padding + 1))
              (fun i => b <- index (map Bytes.to_Z data) (- i);;
                        (if negb (b =? padding)%Z
                         then Raise (ValueError "Invalid padding")
                         else Ok tt)) = Ok tt).
    { apply for_each_ok. intros i Hi. unfold zrange in Hi.
      apply in_map_iff in Hi. destruct Hi as [k [<- Hk]]. apply in_seq in Hk.
      rewrite Hall by lia. cbn [bind]. now rewrite Z.eqb_refl. }
    rewrite Hok in Hrun. discriminate Hrun.
Qed.

End UnpadValid.

(** ** Padding removal on padded data *)

Section Padded.

Variable body : list byte.
Variable n : Z.
Hypothesis Hn : (1 <= n <= 16)%Z.

Lemma padded_length :
  List.length (map Bytes.to_Z (body ++ repeat (Bytes.of_Z n) (Z.to_nat n)))
  = (List.length body + Z.to_nat n)%nat.
Proof. now rewrite length_map, length_app, repeat_length. Qed.

Lemma padded_subscript (i : Z) :
  (1 <= i <= n)%Z ->
  index (map Bytes.to_Z (body ++ repeat (Bytes.of_Z n) (Z.to_nat n))) (- i)
  = Ok n.
Proof.
  intros Hi. unfold index. rewrite subscript_from_end
    by (rewrite padded_length; lia).
  rewrite padded_length.
  rewrite nth_error_map, nth_error_app2 by lia.
  rewrite nth_error_repeat by lia. cbn [option_map].
  rewrite to_Z_of_Z by lia. reflexivity.
Qed.

(** A block that ends in [n] bytes of value [n] loses exactly them. *)
Lemma unpad_of_padded :
  _unpad (body ++ repeat (Bytes.of_Z n) (Z.to_nat n)) = Ok body.
Proof.
  apply unpad_ok_iff. exists n.
  split; [apply (padded_subscript 1); lia |]. split; [lia |].
  split; [exact padded_subscript |].
  unfold slice_to. replace (- n <? 0)%Z with true
    by (symmetry; apply Z.ltb_lt; lia).
  rewrite length_app, repeat_length.
  replace (Z.to_nat (Z.max (- n + Z.of_nat (List.length body + Z.to_nat n)) 0))
    with (List.length body + 0)%nat by lia.
  rewrite firstn_app_2. cbn [firstn]. now rewrite app_nil_r.
Qed.

End Padded.

Lemma pkcs7_padding_length (data : list byte) :
  (1 <= 16 - List.length data mod 16 <= 16)%nat.
Proof.
  pose proof (Nat.mod_upper_bound (List.length data) 16). lia.
Qed.

Lemma unpad_pkcs7_helper (data : list byte) : _unpad (pkcs7 data) = Ok data.
Proof.
  unfold pkcs7. cbv zeta.
  pose proof (pkcs7_padding_length data) as Hn.
  set (n := (16 - List.length data mod 16)%nat) in *.
  rewrite <- (Nat2Z.id n) at 2.
  apply unpad_of_padded. lia.
Qed.

(** X1.  [_unpad] undoes PKCS7 padding: for every byte string, padding it
    to the next multiple of 16 (a full block of 16 when it already is one)
    and calling [_unpad] gives the byte string back, without raising. *)
Theorem unpad_pkcs7 (data : list byte) : _unpad (pkcs7 data) = Ok data.
Proof.
  unfold pkcs7. cbv zeta.
  pose proof (pkcs7_padding_length data) as Hn.
  set (n := (16 - List.length data mod 16)%nat) in *.
  rewrite <- (Nat2Z.id n) at 2.
  apply unpad_of_padded. lia.
Qed.

(** X2.  When [_unpad] returns, the last byte of its input is a number
    [padding] between 0 and 16, and either [padding] is 0 and the result
    is empty, or the input is the result followed by exactly [padding]
    bytes of value [padding]: nothing else is ever accepted, and nothing
    but that run is removed. *)
Theorem unpad_ok_shape (data out : list byte) :
  _unpad data = Ok out ->
  exists padding,
    index (map Bytes.to_Z data) (-1) = Ok padding /\
    (0 <= padding <= 16)%Z /\
    ((padding = 0%Z /\ out = []) \/
     ((1 <= padding)%Z /\
      data = out ++ repeat (Bytes.of_Z padding) (Z.to_nat padding))).
Proof.
  intros H. apply unpad_ok_iff in H.
  destruct H as [p [Hlast [Hp [Hall ->]]]].
  exists p. split; [exact Hlast |].
  assert (Hp0 : (0 <= p)%Z).
  { unfold index in Hlast. apply (subscript_ok_inv _ _ 1) in Hlast; [| lia].
    destruct Hlast as [_ Hnth]. rewrite nth_error_map in Hnth.
    destruct (nth_error data _) as [b |]; [| discriminate Hnth].
    injection Hnth as <-. apply to_Z_range. }
  split; [lia |].
  destruct (Z.eq_dec p 0) as [-> | Hne].
  - left. split; [reflexivity |]. unfold slice_to.
    change (- 0 <? 0)%Z with false. cbv iota.
    rewrite Z.min_l by lia. reflexivity.
  - right. split; [lia |].
    assert (Hlen : (p <= Z.of_nat (List.length data))%Z).
    { specialize (Hall p ltac:(lia)). unfold index in Hall.
      apply subscript_ok_inv in Hall; [| lia].
      rewrite length_map in Hall. tauto. }
    unfold slice_to. replace (- p <? 0)%Z with true
      by (symmetry; apply Z.ltb_lt; lia).
    replace (Z.to_nat (Z.max (- p + Z.of_nat (List.length data)) 0))
      with (List.length data - Z.to_nat p)%nat by lia.
    set (k := (List.length data - Z.to_nat p)%nat).
    rewrite <- (firstn_skipn k data) at 1. f_equal.
    assert (Hk : List.length (skipn k data) = Z.to_nat p)
      by (rewrite length_skipn; unfold k; lia).
    rewrite <- Hk. apply Forall_eq_repeat. apply Forall_forall.
    intros x Hx. apply In_nth_error in Hx. destruct Hx as [j Hj].
    assert (Hjp : (j < Z.to_nat p)%nat).
    { rewrite <- Hk. apply nth_error_Some. congruence. }
    rewrite nth_error_skipn in Hj.
    specialize (Hall (p - Z.of_nat j)%Z ltac:(lia)). unfold index in Hall.
    apply subscript_ok_inv in Hall; [| lia]. destruct Hall as [_ Hnth].
    rewrite length_map, nth_error_map in Hnth.
    replace (List.length data - Z.to_nat (p - Z.of_nat j))%nat
      with (k + j)%nat in Hnth by (unfold k; lia).
    rewrite Hj in Hnth. injection Hnth as <-. now rewrite of_Z_to_Z.
Qed.

Lemma unpad_ok_shape_witness :
  exists padding,
    index (map Bytes.to_Z (Bytes.of_string "abc" ++ [x02; x02])) (-1)
    = Ok padding /\
    (0 <= padding <= 16)%Z /\
    ((padding = 0%Z /\ Bytes.of_string "abc" = []) \/
     ((1 <= padding)%Z /\
      Bytes.of_string "abc" ++ [x02; x02]
      = Bytes.of_string "abc"
          ++ repeat (Bytes.of_Z padding) (Z.to_nat padding))).
Proof.
  apply (unpad_ok_shape (Bytes.of_string "abc" ++ [x02; x02])
                        (Bytes.of_string "abc")).
  vm_compute. reflexivity.
Defined.

(** ** The size of a SHA-256 digest *)

Section DigestLength.

Lemma to_be_length (n : nat) (z : Z) : List.length (Bytes.to_be n z) = n.
Proof.
  revert z. induction n as [|n IH]; intros z; [reflexivity |].
  cbn [Bytes.to_be]. rewrite length_app, IH. cbn [List.length]. lia.
Qed.

Lemma bytes_of_length (ws : list Z) :
  List.length (Word32.bytes_of ws) = (4 * List.length ws)%nat.
Proof.
  unfold Word32.bytes_of. induction ws as [|w ws IH]; [reflexivity |].
  cbn [flat_map]. rewrite length_app, to_be_length, IH.
  cbn [List.length]. lia.
Qed.

Lemma sha256_round_length (st : list Z) (kw : Z * Z) :
  List.length (SHA256.round st kw) = List.length st.
Proof.
  unfold SHA256.round.
  destruct st as [|a [|b [|c [|d [|e [|f [|g [|h [|i st]]]]]]]]]; reflexivity.
Qed.

Lemma sha256_rounds_length (kws : list (Z * Z)) (st : list Z) :
  List.length (fold_left SHA256.round kws st) = List.length st.
Proof.
  revert st. induction kws as [|kw kws IH]; intros st; [reflexivity |].
  cbn [fold_left]. now rewrite IH, sha256_round_length.
Qed.

Lemma sha256_compress_length (h : list Z) (block : list byte) :
  List.length (SHA256.compress h block) = List.length h.
Proof.
  unfold SHA256.compress. cbv zeta.
  rewrite length_map, length_combine, sha256_rounds_length. lia.
Qed.

Lemma sha256_blocks_length (blocks : list (list byte)) (h : list Z) :
  List.length (fold_left SHA256.compress blocks h) = List.length h.
Proof.
  revert h. induction blocks as [|b blocks IH]; intros h; [reflexivity |].
  cbn [fold_left]. now rewrite IH, sha256_compress_length.
Qed.

(** A digest has 32 bytes, whatever the message. *)
Lemma sha256_digest_length (msg : list byte) :
  List.length (SHA256.digest msg) = 32%nat.
Proof.
  unfold SHA256.digest. rewrite bytes_of_length, sha256_blocks_length.
  reflexivity.
Qed.

End DigestLength.

(** ** When [decrypted] raises *)

Lemma v1x_prefixed_iff (e : list byte) :
  existsb (Bytes.eqb (firstn 3 e))
          [Bytes.of_string "v10"; Bytes.of_string "v11"] = true
  <-> v1x_prefixed e.
Proof.
  unfold v1x_prefixed. cbn [existsb].
  rewrite orb_false_r, orb_true_iff, !bytes_eqb_eq. reflexivity.
Qed.

(** X3.  The one exception [decrypted] lets through.  [decrypted] raises
    if and only if the plaintext column is empty, the encrypted column
    starts with [v10] or [v11] and what follows the marker is not a whole
    number of 16-byte blocks; the exception then is the [ValueError] of
    the CBC cipher.  Every failure of [_unpad] is absorbed by the bare
    [except], and the decoding ignores errors. *)
Theorem decrypted_raises_iff (self : Cookie) (password : string) (e : exn) :
  decrypted self password = Raise e <->
  value self = "" /\
  v1x_prefixed (encrypted self) /\
  ((List.length (encrypted self) - 3) mod 16 <> 0)%nat /\
  e = ValueError "Data must be padded to 16 byte boundary in CBC mode".
Proof.
  unfold decrypted.
  destruct (value self) as [|c v] eqn:Hvalue; cbn [truthy].
  2: { split; [intros H; discriminate H | intros [H _]; discriminate H]. }
  destruct (encrypted self) as [|b bs] eqn:Henc.
  { split; [intros H; discriminate H |].
    intros [_ [[H | H] _]]; discriminate H. }
  rewrite <- Henc. clear Henc b bs.
  pose proof (v1x_prefixed_iff (encrypted self)) as Hmark.
  destruct (existsb _ _).
  - cbv zeta. unfold AES.cbc_decrypt. rewrite length_skipn.
    destruct (Nat.eqb_spec ((List.length (encrypted self) - 3) mod 16) 0)
      as [Hz | Hnz]; cbn [bind].
    + split; [intros H; discriminate H |]. intros [_ [_ [H _]]]. contradiction.
    + split.
      * intros H. injection H as <-. split; [reflexivity |].
        split; [now apply Hmark |]. split; [exact Hnz | reflexivity].
      * intros [_ [_ [_ ->]]]. reflexivity.
  - split; [intros H; discriminate H |].
    intros [_ [H _]]. apply Hmark in H. discriminate H.
Qed.

(** ** Sealed values *)

(** X4.  The newer format, end to end.  If the blocks behind the version
    marker decrypt to the PKCS7-padded concatenation of the SHA-256 digest
    of the host key and a value [v], then [decrypted] returns the lossy
    UTF-8 decoding of [v]: padding and digest are both removed, whatever
    the length and the content of [v]. *)
Theorem decrypted_new_format
        (self : Cookie) (password : string) (v : list byte) :
  value self = "" ->
  v1x_prefixed (encrypted self) ->
  AES.cbc_decrypt (KDF.PBKDF2 (UTF8.encode password) SALT LENGTH ITERATIONS)
                  IV (skipn 3 (encrypted self))
  = Ok (pkcs7 (SHA256.digest (UTF8.encode (host_key self)) ++ v)) ->
  decrypted self password = Ok (UTF8.decode_ignore v).
Proof.
  intros Hvalue Hprefix Hblock.
  rewrite (decrypted_v1x self password _ Hvalue Hprefix Hblock).
  rewrite unpad_pkcs7_helper. cbn [try_except].
  unfold strip_domain_hash.
  pose proof (sha256_digest_length (UTF8.encode (host_key self))) as Hlen.
  set (digest := SHA256.digest (UTF8.encode (host_key self))) in *.
  replace (32 <=? List.length (digest ++ v))%nat with true
    by (symmetry; apply Nat.leb_le; rewrite length_app; lia).
  assert (Hhead : firstn 32 (digest ++ v) = digest).
  { rewrite <- Hlen, firstn_app, Nat.sub_diag, firstn_all.
    cbn [firstn]. apply app_nil_r. }
  assert (Htail : skipn 32 (digest ++ v) = v).
  { rewrite <- Hlen, skipn_app, Nat.sub_diag, skipn_all. reflexivity. }
  rewrite Hhead, Htail, (proj2 (bytes_eqb_eq digest digest) eq_refl).
  reflexivity.
Qed.

Lemma decrypted_new_format_witness :
  decrypted (example_cookie sealed_with_domain_hash) "peanuts"
  = Ok (UTF8.decode_ignore (Bytes.of_string "abc123")).
Proof.
  apply (decrypted_new_format (example_cookie sealed_with_domain_hash)
                              "peanuts" (Bytes.of_string "abc123")).
  - reflexivity.
  - left. vm_compute. reflexivity.
  - run_cipher.
Defined.

(** X5.  The older format, end to end.  If the blocks behind the version
    marker decrypt to the PKCS7-padded value [v], and [v] does not begin
    with the SHA-256 digest of the host key, then [decrypted] returns the
    lossy UTF-8 decoding of the whole of [v]. *)
Theorem decrypted_old_format
        (self : Cookie) (password : string) (v : list byte) :
  value self = "" ->
  v1x_prefixed (encrypted self) ->
  AES.cbc_decrypt (KDF.PBKDF2 (UTF8.encode password) SALT LENGTH ITERATIONS)
                  IV (skipn 3 (encrypted self))
  = Ok (pkcs7 v) ->
  firstn 32 v <> SHA256.digest (UTF8.encode (host_key self)) ->
  decrypted self password = Ok (UTF8.decode_ignore v).
Proof.
  intros Hvalue Hprefix Hblock Hhash.
  rewrite (decrypted_v1x self password _ Hvalue Hprefix Hblock).
  rewrite unpad_pkcs7_helper. cbn [try_except].
  unfold strip_domain_hash. apply bytes_eqb_neq in Hhash. rewrite Hhash.
  now destruct (32 <=? List.length v)%nat.
Qed.

Lemma decrypted_old_format_witness :
  decrypted (example_cookie sealed_old_format) "peanuts"
  = Ok (UTF8.decode_ignore (Bytes.of_string "abc123")).
Proof.
  apply (decrypted_old_format (example_cookie sealed_old_format)
                              "peanuts" (Bytes.of_string "abc123")).
  - reflexivity.
  - left. vm_compute. reflexivity.
  - run_cipher.
  - vm_compute. intros H. discriminate H.
Defined.

Lemma short_value_is_not_a_digest (v msg : list byte) :
  (List.length v < 32)%nat -> firstn 32 v <> SHA256.digest msg.
Proof.
  intros Hshort Heq. apply (f_equal (@List.length byte)) in Heq.
  rewrite sha256_digest_length, length_firstn in Heq. lia.
Qed.

(** ** The variants of a domain *)

Section Variants.

Lemma string_length_append (a b : string) :
  String.length (a ++ b) = (String.length a + String.length b)%nat.
Proof. induction a as [|c a IH]; cbn; [reflexivity | now rewrite IH]. Qed.

Lemma dot_suffixes_length (s : string) : List.length (dot_suffixes s) = dots s.
Proof.
  induction s as [|c s IH]; [reflexivity |]. cbn [dot_suffixes dots].
  destruct (Ascii.eqb c "."); cbn [List.length]; now rewrite IH.
Qed.

Lemma dot_suffixes_shorter (s t : string) :
  In t (dot_suffixes s) -> (String.length t < String.length s)%nat.
Proof.
  intros H. apply dot_suffixes_spec in H. destruct H as [pre ->].
  rewrite string_length_append. cbn [String.length]. lia.
Qed.

Lemma dot_suffixes_In (pre t : string) :
  In t (dot_suffixes (pre ++ String "." t)).
Proof.
  induction pre as [|c pre IH]; cbn [String.append dot_suffixes].
  - now left.
  - destruct (Ascii.eqb c "."); [now right | exact IH].
Qed.

Lemma dot_suffixes_NoDup (s : string) : NoDup (dot_suffixes s).
Proof.
  induction s as [|c s IH]; cbn [dot_suffixes]; [constructor |].
  destruct (Ascii.eqb c "."); [| exact IH].
  constructor; [| exact IH].
  intros H. apply dot_suffixes_shorter in H. lia.
Qed.

Lemma NoDup_map_injective {A B} (f : A -> B) (l : list A) :
  (forall a b, f a = f b -> a = b) -> NoDup l -> NoDup (map f l).
Proof.
  intros Hinj. induction 1 as [|x l Hx _ IH]; cbn [map]; constructor.
  - intros H. apply in_map_iff in H. destruct H as [y [Hy Hin]].
    apply Hinj in Hy. now subst y.
  - exact IH.
Qed.

Lemma lstrip_behind_dot (s : string) :
  lstrip ("." ++ s) "." = lstrip s ".".
Proof. reflexivity. Qed.

End Variants.

(** X6.  The list of domain variants built by [get_cookies] never names a
    variant twice, whatever the domain. *)
Theorem domains_to_query_NoDup (domain : string) :
  NoDup (domains_to_query domain).
Proof.
  rewrite domains_to_query_shape.
  destruct (startswith domain ".") eqn:Hdot.
  - constructor; [intros [] | constructor].
  - cbn [app]. constructor; [| constructor].
    + intros [H | H].
      * apply (f_equal String.length) in H. cbn in H. lia.
      * apply in_map_iff in H. destruct H as [t [H _]].
        rewrite <- H in Hdot. discriminate Hdot.
    + intros H. apply in_map_iff in H. destruct H as [t [H Ht]].
      injection H as ->. apply dot_suffixes_shorter in Ht. lia.
    + apply NoDup_map_injective; [| apply dot_suffixes_NoDup].
      intros a b H. now injection H.
Qed.

(** X7.  The variants of a domain.  A domain that starts with a dot has
    itself as its only variant; any other domain has two variants plus one
    for each of its dots.  The first variant is the domain itself, all the
    others start with a dot, and every variant, its leading dots removed,
    closes the domain. *)
Theorem domains_to_query_census (domain : string) :
  List.length (domains_to_query domain)
  = (if startswith domain "." then 1 else 2 + dots domain)%nat
  /\ hd_error (domains_to_query domain) = Some domain
  /\ Forall (fun d => startswith d "." = true) (tl (domains_to_query domain))
  /\ Forall (fun d => endswith domain (lstrip d ".") = true)
            (domains_to_query domain).
Proof.
  rewrite domains_to_query_shape.
  destruct (startswith domain ".") eqn:Hdot.
  - split; [reflexivity |]. split; [reflexivity |].
    split; [constructor |]. constructor; [apply endswith_lstrip | constructor].
  - cbn [app List.length hd_error tl].
    rewrite length_map, dot_suffixes_length.
    split; [reflexivity |]. split; [reflexivity |]. split.
    + constructor; [reflexivity |]. apply Forall_forall.
      intros d Hd. apply in_map_iff in Hd. now destruct Hd as [t [<- _]].
    + constructor; [apply endswith_lstrip |].
      constructor; [rewrite lstrip_behind_dot; apply endswith_lstrip |].
      apply Forall_forall. intros d Hd. apply in_map_iff in Hd.
      destruct Hd as [t [<- Ht]]. rewrite lstrip_behind_dot.
      apply dot_suffixes_spec in Ht. destruct Ht as [pre ->].
      apply endswith_append.
      apply (endswith_append "."), endswith_lstrip.
Qed.

(** X8.  Which stored entries a run for [domain] removes.  The filter of
    [main] drops an entry exactly when its domain ends with the requested
    domain without its leading dots or, for a requested domain that does
    not start with a dot, with what follows one of the dots of the
    requested domain, leading dots removed. *)
Theorem stale_iff_ends_with_a_dot_suffix (domain : string) (c : Entry.t) :
  stale (domains_to_query domain) c = true <->
  exists t,
    (t = domain \/
     (startswith domain "." = false /\ In t (dot_suffixes domain))) /\
    endswith (Entry.domain c) (lstrip t ".") = true.
Proof.
  unfold stale. rewrite existsb_exists, domains_to_query_shape.
  destruct (startswith domain ".") eqn:Hdot.
  - split.
    + intros [d [[<- | []] H]]. exists domain. split; [now left | exact H].
    + intros [t [[-> | [Hf _]] H]]; [| discriminate Hf].
      exists domain. split; [now left | exact H].
  - cbn [app]. split.
    + intros [d [[<- | [<- | Hd]] H]].
      * exists domain. split; [now left | exact H].
      * exists domain. split; [now left | exact H].
      * apply in_map_iff in Hd. destruct Hd as [t [<- Ht]].
        exists t. split; [right; now split | exact H].
    + intros [t [[-> | [_ Ht]] H]].
      * exists domain. split; [now left | exact H].
      * exists ("." ++ t)%string. split; [| exact H].
        right. right. apply in_map_iff. now exists t.
Qed.

(** ** The decoder gives text *)

Section DecoderIdempotent.

Import UTF8.

Lemma well_formed_part_idempotent (data : list byte) :
  well_formed_part (well_formed_part data) = well_formed_part data.
Proof.
  induction data as [data IH] using strong_list_ind.
  destruct data as [|b1 t1]; [reflexivity |].
  rewrite (well_formed_part_cons b1 t1). cbv zeta.
  pose proof (IH t1 ltac:(cbn; lia)) as H1.
  destruct (Bytes.to_Z b1 <? 128)%Z eqn:C1.
  { rewrite well_formed_part_cons. cbv zeta. rewrite C1. now rewrite H1. }
  destruct ((Bytes.to_Z b1 <? 194) || (245 <=? Bytes.to_Z b1))%Z eqn:C2;
    [exact H1 |].
  destruct t1 as [|b2 t2]; [reflexivity |].
  pose proof (IH t2 ltac:(cbn; lia)) as H2.
  destruct (second_ok (Bytes.to_Z b1) (Bytes.to_Z b2)) eqn:C3; cbn [negb];
    [| exact H1].
  destruct (Bytes.to_Z b1 <? 224)%Z eqn:C4.
  { rewrite well_formed_part_cons. cbv zeta. rewrite C1, C2, C3, C4.
    cbn [negb]. now rewrite H2. }
  destruct t2 as [|b3 t3]; [reflexivity |].
  pose proof (IH t3 ltac:(cbn; lia)) as H3.
  destruct (is_continuation (Bytes.to_Z b3)) eqn:C5; cbn [negb]; [| exact H2].
  destruct (Bytes.to_Z b1 <? 240)%Z eqn:C6.
  { rewrite well_formed_part_cons. cbv zeta. rewrite C1, C2, C3, C4, C5, C6.
    cbn [negb]. now rewrite H3. }
  destruct t3 as [|b4 t4]; [reflexivity |].
  pose proof (IH t4 ltac:(cbn; lia)) as H4.
  destruct (is_continuation (Bytes.to_Z b4)) eqn:C7; cbn [negb]; [| exact H3].
  rewrite well_formed_part_cons. cbv zeta. rewrite C1, C2, C3, C4, C5, C6, C7.
  cbn [negb]. now rewrite H4.
Qed.

Lemma decode_ignore_text (data : list byte) : text (decode_ignore data).
Proof.
  apply text_iff. unfold decode_ignore, encode, Bytes.to_string, Bytes.of_string.
  rewrite list_byte_of_string_of_list_byte.
  apply well_formed_part_idempotent.
Qed.

End DecoderIdempotent.

(** ** get_cookies *)

(** X9.  The host keys [get_cookies] returns.  For a requested domain that
    is well-formed text, a host key occurs among the returned cookies if
    and only if it is one of the variants of the domain and its UTF-8
    encoding is the [host_key] column of some row of the table. *)
Theorem get_cookies_host_keys (requested : string) (table : list DbRow.t)
        (h : string) :
  text requested ->
  (In h (map host_key (fst (get_cookies requested table))) <->
   In h (domains_to_query requested) /\
   In (UTF8.encode h) (map DbRow.host_key table)).
Proof.
  intros Htext.
  pose proof (domains_to_query_text requested Htext) as Hall.
  rewrite Forall_forall in Hall.
  unfold get_cookies. cbn [fst]. rewrite map_map. cbn [host_key].
  rewrite !in_map_iff. split.
  - intros [row [<- Hrow]]. apply filter_In in Hrow.
    destruct Hrow as [Hrow Hwhere].
    unfold where_conditions in Hwhere. apply existsb_exists in Hwhere.
    destruct Hwhere as [d [Hd Heq]]. apply bytes_eqb_eq in Heq.
    pose proof (Hall d Hd) as Hd'. unfold text in Hd'.
    rewrite Heq, Hd'. split; [exact Hd |]. exists row. now split.
  - intros [Hh [row [Heq Hrow]]]. exists row. split.
    + rewrite Heq. apply (Hall h Hh).
    + apply filter_In. split; [exact Hrow |].
      unfold where_conditions. apply existsb_exists. exists h.
      split; [exact Hh |]. apply bytes_eqb_eq. exact Heq.
Qed.

Lemma get_cookies_host_keys_witness :
  In ".github.com"
     (map host_key (fst (get_cookies "github.com" github_table))) <->
  In ".github.com" (domains_to_query "github.com") /\
  In (UTF8.encode ".github.com") (map DbRow.host_key github_table).
Proof.
  apply (get_cookies_host_keys "github.com" github_table ".github.com").
  vm_compute. reflexivity.
Defined.

(** X10.  What [get_cookies] returns.  Every cookie's name, value, path and
    host key are well-formed text (the lossy decoder never lets a
    malformed byte through), its [domain] is the requested domain, there
    are no more cookies than rows, and the second component is the list of
    variants. *)
Theorem get_cookies_fields (requested : string) (table : list DbRow.t) :
  Forall (fun cookie =>
            text (name cookie) /\ text (value cookie) /\ text (path cookie) /\
            text (host_key cookie) /\ domain cookie = requested)
         (fst (get_cookies requested table))
  /\ (List.length (fst (get_cookies requested table))
      <= List.length table)%nat
  /\ snd (get_cookies requested table) = domains_to_query requested.
Proof.
  unfold get_cookies. cbn [fst snd]. split; [| split; [| reflexivity]].
  - apply Forall_forall. intros cookie Hin. apply in_map_iff in Hin.
    destruct Hin as [row [<- _]]. cbn.
    repeat split; apply decode_ignore_text.
  - rewrite length_map. apply filter_length_le.
Qed.

(** ** Cookies that stop the loop *)

Section Failures.

Variable password : string.

Lemma decrypted_misaligned (cookie : Cookie) :
  misaligned cookie ->
  decrypted cookie password
  = Raise (ValueError "Data must be padded to 16 byte boundary in CBC mode").
Proof.
  intros [Hvalue [Hprefix Hlen]]. unfold decrypted.
  rewrite Hvalue. cbn [truthy].
  rewrite (proj2 (v1x_prefixed_iff (encrypted cookie)) Hprefix). cbv zeta.
  unfold AES.cbc_decrypt. rewrite length_skipn.
  apply Nat.eqb_neq in Hlen. rewrite Hlen. cbn [bind].
  destruct (encrypted cookie) eqn:E; [| reflexivity].
  destruct Hprefix as [H | H]; discriminate H.
Qed.

(** A cookie that raises in one loop state raises in every loop state. *)
Lemma convert_raise_any_state (cookie : Cookie) (e : exn)
      (state state' : list Entry.t * string) :
  convert password state cookie = Raise e ->
  convert password state' cookie = Raise e.
Proof.
  destruct state as [acc shown], state' as [acc' shown']. unfold convert.
  destruct (decrypted cookie password) as [v | err]; cbn [bind]; [| auto].
  destruct (truthy v); [| intros H; discriminate H].
  destruct (sameSite_of (same_site cookie)) as [ss | err]; cbn [bind]; [| auto].
  destruct (0 <? expires cookie)%Z; [| intros H; discriminate H].
  destruct (unix_seconds (expires cookie)) as [secs | err]; cbn [bind];
    [intros H; discriminate H | auto].
Qed.

(** The loop stops at the first cookie that raises. *)
Lemma convert_all_raises (cookies : list Cookie) (cookie : Cookie) :
  In cookie cookies ->
  (exists e, convert password ([], "") cookie = Raise e) ->
  forall state, exists e, convert_all password state cookies = Raise e.
Proof.
  intros Hin [e He]. induction cookies as [|c rest IH]; [destruct Hin |].
  intros state. cbn [convert_all].
  destruct (convert password state c) as [state1 | e1] eqn:Hc; cbn [bind].
  - destruct Hin as [-> | Hin]; [| now apply IH].
    apply (convert_raise_any_state _ _ _ state) in He. congruence.
  - now exists e1.
Qed.

Lemma sameSite_of_below (n : Z) :
  (n < -3)%Z ->
  sameSite_of n = Raise (IndexError "list index out of range").
Proof.
  intros Hn. unfold sameSite_of, list_index, subscript.
  replace (n <? 3)%Z with true by (symmetry; apply Z.ltb_lt; lia).
  replace (n <? 0)%Z with true by (symmetry; apply Z.ltb_lt; lia).
  cbn [List.length].
  replace (0 <=? n + Z.of_nat 3)%Z with false
    by (symmetry; apply Z.leb_gt; lia).
  reflexivity.
Qed.

End Failures.

(** X11.  The loop of [main].  When the loop ends without an exception, the
    entries it has emitted are, in order and one for one, the entries of
    the cookies whose decrypted value is not empty: a cookie with an empty
    value is skipped, no other cookie is, and nothing is reordered. *)
Theorem emitted_entries_follow_the_rows
        (password : string) (cookies : list Cookie) (requested : string)
        (new_cookies : list Entry.t) (shown : string) :
  convert_all password ([], requested) cookies = Ok (new_cookies, shown) ->
  Forall2 (emitted_from password)
          (filter (decrypts_nonempty password) cookies) new_cookies.
Proof.
  assert (H : forall cs acc d new d',
             convert_all password (acc, d) cs = Ok (new, d') ->
             exists emitted,
               new = acc ++ emitted /\
               Forall2 (emitted_from password)
                       (filter (decrypts_nonempty password) cs) emitted).
  { induction cs as [|c cs IH]; intros acc d new d' Hrun.
    - injection Hrun as <- <-. exists []. rewrite app_nil_r.
      split; [reflexivity | constructor].
    - cbn [convert_all] in Hrun.
      destruct (convert password (acc, d) c) as [[acc1 d1] | err] eqn:Hc;
        cbn [bind] in Hrun; [| discriminate Hrun].
      apply IH in Hrun. destruct Hrun as [emitted [-> Hall]].
      apply convert_inv in Hc. cbn [filter]. unfold decrypts_nonempty at 1.
      destruct Hc as [[Hempty [-> ->]] | [e [He [-> ->]]]].
      + rewrite Hempty. cbn [truthy]. now exists emitted.
      + rewrite (from_value _ _ _ He), (from_truthy _ _ _ He).
        exists (e :: emitted). rewrite <- app_assoc.
        split; [reflexivity | now constructor]. }
  intros Hrun. apply H in Hrun. now destruct Hrun as [emitted [-> Hall]].
Qed.

Lemma emitted_entries_follow_the_rows_witness :
  Forall2 (emitted_from "peanuts")
          (filter (decrypts_nonempty "peanuts") two_plain_cookies)
          [entry_of_host_cookie; entry_of_sid_cookie].
Proof.
  apply (emitted_entries_follow_the_rows
           "peanuts" two_plain_cookies "example.com"
           [entry_of_host_cookie; entry_of_sid_cookie] ".example.com").
  vm_compute. reflexivity.
Defined.

(** X12.  One bad row fails the run.  If one of the cookies returned for the
    domain has an empty plaintext column and a [v10]/[v11] value that is
    not a whole number of blocks, [main] ends in its [except] branch with
    a single error line: nothing is saved, not even for the cookies that
    came before. *)
Theorem misaligned_cookie_fails_the_run
        {Origin : Type} (requested password : string) (table : list DbRow.t)
        (storage_state : Storage.t Origin) (cookie : Cookie) :
  In cookie (fst (get_cookies requested table)) ->
  misaligned cookie ->
  exists e,
    main requested password table storage_state
    = Failed [("Error: " ++ str_of_exn e)%string].
Proof.
  intros Hin Hbad. rewrite main_eq.
  destruct (convert_all_raises password _ cookie Hin) with (state := (@nil Entry.t, requested))
    as [e He].
  { exists (ValueError "Data must be padded to 16 byte boundary in CBC mode").
    unfold convert. now rewrite (decrypted_misaligned password cookie Hbad). }
  rewrite He. exists e.
  destruct (fst (get_cookies requested table)); [destruct Hin | reflexivity].
Qed.

Lemma misaligned_cookie_witness :
  exists e,
    main "github.com" "peanuts"
         [plain_row "lang" "en" ".github.com"; truncated_row] (storage_of [])
    = Failed [("Error: " ++ str_of_exn e)%string].
Proof.
  apply (misaligned_cookie_fails_the_run
           "github.com" "peanuts"
           [plain_row "lang" "en" ".github.com"; truncated_row] (storage_of [])
           truncated_cookie).
  - right. left. vm_compute. reflexivity.
  - split; [reflexivity |].
    split; [left; vm_compute; reflexivity |].
    vm_compute. intros H. discriminate H.
Defined.

(** X13.  So does one same-site value below -3 on a cookie with a non-empty
    decrypted value: the subscript of the three names raises, and the run
    ends with a single error line and saves nothing. *)
Theorem same_site_below_minus_three_fails_the_run
        {Origin : Type} (requested password : string) (table : list DbRow.t)
        (storage_state : Storage.t Origin) (cookie : Cookie) :
  In cookie (fst (get_cookies requested table)) ->
  decrypts_nonempty password cookie = true ->
  (same_site cookie < -3)%Z ->
  exists e,
    main requested password table storage_state
    = Failed [("Error: " ++ str_of_exn e)%string].
Proof.
  intros Hin Hvalue Hss. rewrite main_eq.
  destruct (convert_all_raises password _ cookie Hin) with (state := (@nil Entry.t, requested))
    as [e He].
  { exists (IndexError "list index out of range").
    unfold convert. unfold decrypts_nonempty in Hvalue.
    destruct (decrypted cookie password) as [v | err]; [| discriminate Hvalue].
    cbn [bind]. rewrite Hvalue, (sameSite_of_below _ Hss). reflexivity. }
  rewrite He. exists e.
  destruct (fst (get_cookies requested table)); [destruct Hin | reflexivity].
Qed.

Lemma same_site_below_minus_three_witness :
  exists e,
    main "github.com" "peanuts"
         [plain_row "lang" "en" ".github.com"; row_with_same_site_minus_four]
         (storage_of [])
    = Failed [("Error: " ++ str_of_exn e)%string].
Proof.
  apply (same_site_below_minus_three_fails_the_run
           "github.com" "peanuts"
           [plain_row "lang" "en" ".github.com"; row_with_same_site_minus_four]
           (storage_of []) cookie_with_same_site_minus_four).
  - right. left. vm_compute. reflexivity.
  - vm_compute. reflexivity.
  - vm_compute. reflexivity.
Defined.

(** X14.  The same-site expression over all integers.  From -3 upwards it
    gives one of ["None"], ["Lax"], ["Strict"]; below -3 it raises
    [IndexError]. *)
Theorem sameSite_of_range (n : Z) :
  ((-3 <= n)%Z ->
   exists s, sameSite_of n = Ok s /\ In s ["None"; "Lax"; "Strict"]) /\
  ((n < -3)%Z -> sameSite_of n = Raise (IndexError "list index out of range")).
Proof.
  split; [| apply sameSite_of_below].
  intros Hn. destruct (Z.ltb_spec n 3) as [Hlt | Hge].
  - assert (H : n = (-3)%Z \/ n = (-2)%Z \/ n = (-1)%Z
                \/ n = 0%Z \/ n = 1%Z \/ n = 2%Z) by lia.
    destruct H as [-> | [-> | [-> | [-> | [-> | ->]]]]];
      eexists; (split; [vm_compute; reflexivity | cbn; tauto]).
  - exists "None". split; [| now left].
    unfold sameSite_of. apply Z.ltb_ge in Hge. now rewrite Hge.
Qed.

(** X15.  When a run reports that it found no cookies.  [main] prints the
    two lines about the missing cookies if and only if no row of the table
    has the UTF-8 encoding of one of the variants as its host key; the
    stored state and the password play no part. *)
Theorem no_cookies_found_iff
        {Origin : Type} (requested password : string) (table : list DbRow.t)
        (storage_state : Storage.t Origin) :
  main requested password table storage_state
  = Failed [("Error: No cookies found for domain: " ++ requested)%string;
            ("Make sure you are logged into https://" ++ requested
               ++ " in Chrome")%string]
  <-> Forall (fun row =>
                ~ In (DbRow.host_key row)
                     (map UTF8.encode (domains_to_query requested))) table.
Proof.
  rewrite main_eq.
  assert (Hnone : fst (get_cookies requested table) = [] <->
                  Forall (fun row =>
                            ~ In (DbRow.host_key row)
                                 (map UTF8.encode (domains_to_query requested)))
                         table).
  { unfold get_cookies. cbn [fst]. rewrite Forall_forall. split.
    - intros Hnil row Hrow Hin. apply in_map_iff in Hin.
      destruct Hin as [d [Hd Hin]].
      assert (Hf : In row (filter (where_conditions (domains_to_query requested))
                                  table)).
      { apply filter_In. split; [exact Hrow |]. unfold where_conditions.
        apply existsb_exists. exists d. split; [exact Hin |].
        now apply bytes_eqb_eq. }
      destruct (filter _ table); [destruct Hf | discriminate Hnil].
    - intros Hall.
      destruct (filter _ table) as [|row rows] eqn:Hf; [reflexivity |].
      assert (Hrow : In row (filter (where_conditions (domains_to_query requested))
                                    table)) by (rewrite Hf; now left).
      apply filter_In in Hrow. destruct Hrow as [Hrow Hwhere].
      unfold where_conditions in Hwhere. apply existsb_exists in Hwhere.
      destruct Hwhere as [d [Hd Heq]]. apply bytes_eqb_eq in Heq.
      exfalso. apply (Hall row Hrow). apply in_map_iff. now exists d. }
  rewrite <- Hnone.
  destruct (fst (get_cookies requested table)) as [|c cs].
  - split; reflexivity.
  - split; [| intros H; discriminate H].
    destruct (convert_all password ([], requested) (c :: cs)) as [[n s] | e];
      intros H; discriminate H.
Qed.

(** X16.  A requested domain that ends in a dot (and does not start with
    one) has the variant ["."], which strips to the empty string, and every
    string ends with the empty string: the filter removes every stored
    entry, and a run that saves leaves only the entries it has just
    emitted. *)
Theorem trailing_dot_evicts_everything
        {Origin : Type} (requested password : string) (table : list DbRow.t)
        (storage_state storage_state' : Storage.t Origin)
        (stdout : list string) :
  startswith requested "." = false ->
  endswith requested "." = true ->
  main requested password table storage_state = Saved storage_state' stdout ->
  (forall c, stale (domains_to_query requested) c = true) /\
  exists shown,
    convert_all password ([], requested) (fst (get_cookies requested table))
    = Ok (Storage.cookies storage_state', shown).
Proof.
  intros Hlead Htrail Hrun.
  assert (Hall : forall c, stale (domains_to_query requested) c = true).
  { intros c. apply endswith_spec in Htrail. destruct Htrail as [pre Hpre].
    unfold stale. apply existsb_exists. exists ".".
    split.
    - rewrite domains_to_query_shape, Hlead. right. right.
      apply in_map_iff. exists "". split; [reflexivity |].
      rewrite Hpre. apply dot_suffixes_In.
    - apply endswith_spec. exists (Entry.domain c).
      cbn. now rewrite append_nil_r. }
  split; [exact Hall |].
  apply main_saved in Hrun.
  destruct Hrun as [new_cookies [shown [_ [Hloop [-> _]]]]].
  exists shown. cbn [Storage.cookies].
  replace (kept (domains_to_query requested) (Storage.cookies storage_state))
    with (@nil Entry.t); [exact Hloop |].
  symmetry. apply kept_none. apply Forall_forall. intros c _. apply Hall.
Qed.

Lemma trailing_dot_witness :
  (forall c, stale (domains_to_query "github.com.") c = true) /\
  exists shown,
    convert_all "peanuts" ([], "github.com.")
      (fst (get_cookies "github.com." [plain_row "sid" "a" "github.com."]))
    = Ok ([plain_entry "sid" "a" ".github.com."], shown).
Proof.
  apply (trailing_dot_evicts_everything
           "github.com." "peanuts" [plain_row "sid" "a" "github.com."]
           storage_with_subdomain_cookie
           (storage_of [plain_entry "sid" "a" ".github.com."])
           (success_messages 1 ".github.com.")).
  - reflexivity.
  - vm_compute. reflexivity.
  - vm_compute. reflexivity.
Defined.

(** ** Paths *)

Section Paths.

Lemma truthy_append (a b : string) :
  truthy b = true -> truthy (a ++ b) = true.
Proof. destruct a; [auto | reflexivity]. Qed.

(** Whether a path ends in a slash is decided by its last component. *)
Lemma endswith_slash_append (a : string) (c : ascii) (b : string) :
  endswith (a ++ String c b) "/" = endswith (String c b) "/".
Proof.
  induction a as [|x a IH]; [reflexivity |].
  cbn [String.append]. rewrite <- IH. cbn [endswith].
  destruct (a ++ String c b)%string eqn:E.
  - destruct a; discriminate E.
  - replace (String x (String a0 s) =? "/") with false; [reflexivity |].
    symmetry. apply String.eqb_neq. intros H. discriminate H.
Qed.

Lemma path_join_app (a : string) (p q : list string) :
  Path.join a (p ++ q) = Path.join (Path.join a p) q.
Proof. unfold Path.join. apply fold_left_app. Qed.

Lemma path_join_plain (p : list string) :
  forall a,
    truthy a = true -> endswith a "/" = false -> Forall plain p ->
    Path.join a p
    = (a ++ fold_right (fun c rest => "/" ++ c ++ rest) "" p)%string.
Proof.
  induction p as [|c p IH]; intros a Ha Hslash Hp.
  - cbn. now rewrite append_nil_r.
  - inversion Hp as [|c' p' [Hc [Habs Htrail]] Hrest]; subst.
    unfold Path.join in *. cbn [fold_left fold_right].
    rewrite Habs, Ha, Hslash. cbn [negb orb].
    destruct c as [|c1 cs]; [discriminate Hc |].
    rewrite IH.
    + now rewrite !append_assoc.
    + apply truthy_append. reflexivity.
    + change (endswith (a ++ ("/" ++ String c1 cs)) "/" = false).
      rewrite <- (append_assoc a "/" (String c1 cs)).
      now rewrite endswith_slash_append.
    + exact Hrest.
Qed.

Lemma cookies_file_under_home_helper (home_dir profile_name : string) :
  truthy home_dir = true ->
  endswith home_dir "/" = false ->
  plain profile_name ->
  cookies_file home_dir profile_name
  = (home_dir ++ "/Library/Application Support/Google/Chrome/"
       ++ profile_name ++ "/Cookies")%string.
Proof.
  intros Hhome Hslash Hprofile. unfold cookies_file.
  rewrite path_join_plain; [reflexivity | exact Hhome | exact Hslash |].
  repeat (constructor; [repeat split; (reflexivity || apply Hprofile) |]).
  constructor.
Qed.

End Paths.

(** X17.  Where the cookie database is looked for.  For a home directory
    that is not empty and does not end in a slash, and a profile name that
    is not empty and neither starts nor ends with a slash, [os.path.join]
    gives the home directory followed by
    ["/Library/Application Support/Google/Chrome/"], the profile name and
    ["/Cookies"]. *)
Theorem cookies_file_under_home (home_dir profile_name : string) :
  truthy home_dir = true ->
  endswith home_dir "/" = false ->
  truthy profile_name = true ->
  startswith profile_name "/" = false ->
  endswith profile_name "/" = false ->
  cookies_file home_dir profile_name
  = (home_dir ++ "/Library/Application Support/Google/Chrome/"
       ++ profile_name ++ "/Cookies")%string.
Proof.
  intros Hhome Hslash Hprofile Habs Htrail.
  apply cookies_file_under_home_helper; [exact Hhome | exact Hslash |].
  repeat split; assumption.
Qed.

Lemma cookies_file_under_home_witness :
  cookies_file "/Users/ada" "Profile 1"
  = "/Users/ada/Library/Application Support/Google/Chrome/Profile 1/Cookies".
Proof.
  apply (cookies_file_under_home "/Users/ada" "Profile 1"); reflexivity.
Defined.

(** X18.  A profile name that starts with a slash replaces everything
    before it: the path is the profile name followed by ["/Cookies"], and
    the home directory plays no part. *)
Theorem cookies_file_absolute_profile (home_dir profile_name : string) :
  startswith profile_name "/" = true ->
  endswith profile_name "/" = false ->
  cookies_file home_dir profile_name = (profile_name ++ "/Cookies")%string.
Proof.
  intros Habs Htrail. unfold cookies_file.
  change ["Library"; "Application Support"; "Google"; "Chrome";
          profile_name; "Cookies"]
    with (["Library"; "Application Support"; "Google"; "Chrome"]
            ++ [profile_name] ++ ["Cookies"]).
  rewrite !path_join_app.
  unfold Path.join at 2. cbn [fold_left]. rewrite Habs.
  unfold Path.join. cbn [fold_left startswith Ascii.eqb].
  destruct profile_name as [|c cs]; [discriminate Habs |].
  cbn [truthy negb orb]. now rewrite Htrail.
Qed.

Lemma cookies_file_absolute_profile_witness :
  cookies_file "/Users/ada" "/tmp/profile" = "/tmp/profile/Cookies".
Proof.
  apply (cookies_file_absolute_profile "/Users/ada" "/tmp/profile");
    reflexivity.
Defined.

(** ** A whole run *)

Section Run.

Context {Origin : Type}.
Variable w : World Origin.

(** The steps of a run that reaches the loop. *)
Lemma getcookie_eq (script requested : string) (rest : list string)
      (out : string) (table : list DbRow.t) :
  argv w = script :: requested :: rest ->
  system w = "Darwin" ->
  security w = Exited0 out ->
  databases w (cookies_file (home w) (profile_of rest)) = Some table ->
  getcookie w
  = match main requested (Str.strip out) table (state_read w) with
    | Saved storage_state' out' =>
        {| status := 0; stdout := out'; stderr := [];
           written := Some storage_state' |}
    | Failed err => stopped [] err
    end.
Proof.
  intros Hargv Hsystem Hsecurity Hfile. unfold getcookie, get_password.
  rewrite Hargv, Hsystem, Hsecurity. cbn [String.eqb Ascii.eqb Bool.eqb negb].
  cbv zeta. unfold open_cookies. fold (profile_of rest). rewrite Hfile.
  reflexivity.
Qed.

(** The ways a run ends. *)
Lemma getcookie_cases :
  getcookie w = stopped [__doc__] []
  \/ (exists msg, getcookie w = stopped [] [("Error: " ++ msg)%string])
  \/ (exists requested,
        getcookie w
        = stopped []
            [("Error: No cookies found for domain: " ++ requested)%string;
             ("Make sure you are logged into https://" ++ requested
                ++ " in Chrome")%string])
  \/ (exists script requested rest out table new_cookies shown,
        argv w = script :: requested :: rest /\
        system w = "Darwin" /\
        security w = Exited0 out /\
        databases w (cookies_file (home w) (profile_of rest)) = Some table /\
        convert_all (Str.strip out) ([], requested)
                    (fst (get_cookies requested table))
        = Ok (new_cookies, shown) /\
        getcookie w
        = {| status := 0;
             stdout := success_messages (List.length new_cookies) shown;
             stderr := [];
             written :=
               Some {| Storage.cookies :=
                         kept (domains_to_query requested)
                              (Storage.cookies (state_read w)) ++ new_cookies;
                       Storage.origins := Storage.origins (state_read w) |}
          |}).
Proof.
  destruct (argv w) as [|script [|requested rest]] eqn:Hargv;
    [left; unfold getcookie; now rewrite Hargv ..|].
  right.
  destruct (String.eqb_spec (system w) "Darwin") as [Hsystem | Hsystem].
  2: { left. eexists. unfold getcookie, get_password. rewrite Hargv.
       apply String.eqb_neq in Hsystem. rewrite Hsystem. reflexivity. }
  destruct (security w) as [out | err] eqn:Hsecurity.
  2: { left. eexists. unfold getcookie, get_password.
       rewrite Hargv, Hsystem, Hsecurity. reflexivity. }
  destruct (databases w (cookies_file (home w) (profile_of rest)))
    as [table |] eqn:Hfile.
  2: { left. eexists. unfold getcookie, get_password, open_cookies.
       rewrite Hargv, Hsystem, Hsecurity. cbn [String.eqb Ascii.eqb Bool.eqb negb].
       cbv zeta. fold (profile_of rest). rewrite Hfile. reflexivity. }
  rewrite (getcookie_eq _ _ _ _ _ Hargv Hsystem Hsecurity Hfile), main_eq.
  destruct (fst (get_cookies requested table)) as [|c cs] eqn:Hcookies.
  { right. left. now exists requested. }
  destruct (convert_all (Str.strip out) ([], requested) (c :: cs))
    as [[new_cookies shown] | e] eqn:Hloop.
  - right. right.
    exists script, requested, rest, out, table, new_cookies, shown.
    rewrite Hcookies. repeat (split; [assumption || reflexivity |]).
    reflexivity.
  - left. now eexists.
Qed.

End Run.

(** ** Whole runs *)

(** X19.  The usage text.  A run prints the module docstring, writes
    nothing and exits with status 1 if and only if the command line has no
    domain argument; the platform, the keychain and the files are not
    looked at. *)
Theorem usage_iff_no_domain {Origin : Type} (w : World Origin) :
  (List.length (argv w) < 2)%nat <-> getcookie w = stopped [__doc__] [].
Proof.
  split.
  - intros Hshort. unfold getcookie.
    destruct (argv w) as [|script [|requested rest]];
      [reflexivity | reflexivity | cbn in Hshort; lia].
  - intros Hrun.
    destruct (argv w) as [|script [|requested rest]] eqn:Hargv;
      [cbn; lia | cbn; lia |]. exfalso.
    destruct (getcookie_cases w)
      as [H | [[msg H] | [[d H] | [s [d [r [o [t [n [sh [_ [_ [_ [_ [_ H]]]]]]]]]]]]]]].
    + unfold getcookie in H. rewrite Hargv in H. cbv zeta in H.
      revert H.
      destruct (get_password _ _); [intros H; discriminate H |].
      destruct (open_cookies _ _ _); [intros H; discriminate H |].
      rewrite main_eq.
      destruct (fst (get_cookies requested l));
        [intros H; discriminate H |].
      destruct (convert_all _ _ _) as [[n sh] | e];
        intros H; discriminate H.
    + rewrite Hrun in H. discriminate H.
    + rewrite Hrun in H. discriminate H.
    + rewrite Hrun in H. discriminate H.
Qed.


(** X21.  On a platform other than macOS a run with a domain argument
    stops with the one error line of [get_password], before the keychain
    and the cookie database are looked at. *)
Theorem other_platforms_are_refused {Origin : Type} (w : World Origin) :
  (2 <= List.length (argv w))%nat ->
  system w <> "Darwin" ->
  getcookie w
  = stopped [] ["Error: This script currently only supports macOS"].
Proof.
  intros Hargv Hsystem. unfold getcookie, get_password.
  destruct (argv w) as [|script [|requested rest]];
    [cbn in Hargv; lia | cbn in Hargv; lia |].
  apply String.eqb_neq in Hsystem. rewrite Hsystem. reflexivity.
Qed.

Lemma other_platforms_witness :
  getcookie (run_of_ada "Linux" (Exited0 "peanuts") chrome_of_ada None)
  = stopped [] ["Error: This script currently only supports macOS"].
Proof.
  apply other_platforms_are_refused.
  - vm_compute. lia.
  - vm_compute. intros H. discriminate H.
Defined.

(** X22.  On macOS, when the [security] command exits with a non-zero
    status, the run stops with one error line that carries the command's
    standard error, and the cookie database is not looked at. *)
Theorem keychain_failure_is_reported {Origin : Type} (w : World Origin)
        (err : string) :
  (2 <= List.length (argv w))%nat ->
  system w = "Darwin" ->
  security w = CalledProcessError err ->
  getcookie w
  = stopped []
      [("Error: Failed to get password from keychain: " ++ err)%string].
Proof.
  intros Hargv Hsystem Hsecurity. unfold getcookie, get_password.
  destruct (argv w) as [|script [|requested rest]];
    [cbn in Hargv; lia | cbn in Hargv; lia |].
  rewrite Hsystem, Hsecurity. reflexivity.
Qed.

Lemma keychain_failure_witness :
  getcookie (run_of_ada "Darwin" (CalledProcessError "no such item")
                        chrome_of_ada None)
  = stopped [] ["Error: Failed to get password from keychain: no such item"].
Proof.
  apply (keychain_failure_is_reported
           (run_of_ada "Darwin" (CalledProcessError "no such item")
                       chrome_of_ada None)
           "no such item").
  - vm_compute. lia.
  - reflexivity.
  - reflexivity.
Defined.

(** X23.  With no profile argument the database of the profile
    ["Default"] is read, and when there is no file at its path, the run
    stops with one error line that names the full path. *)
Theorem missing_default_database_is_reported
        {Origin : Type} (w : World Origin) (script requested out : string) :
  argv w = [script; requested] ->
  system w = "Darwin" ->
  security w = Exited0 out ->
  truthy (home w) = true ->
  endswith (home w) "/" = false ->
  databases w (home w
                 ++ "/Library/Application Support/Google/Chrome/Default/Cookies")
  = None ->
  getcookie w
  = stopped []
      [("Error: Cookie file not found: " ++ home w
          ++ "/Library/Application Support/Google/Chrome/Default/Cookies")%string].
Proof.
  intros Hargv Hsystem Hsecurity Hhome Hslash Hfile.
  unfold getcookie, get_password, open_cookies.
  rewrite Hargv, Hsystem, Hsecurity. cbn [String.eqb Ascii.eqb Bool.eqb negb].
  cbv zeta.
  rewrite (cookies_file_under_home_helper
             (home w) "Default" Hhome Hslash
             (conj eq_refl (conj eq_refl eq_refl))).
  cbn [String.append] in Hfile |- *. rewrite Hfile. reflexivity.
Qed.

Lemma missing_default_database_witness :
  getcookie (run_of_ada "Darwin" (Exited0 "peanuts") (fun _ => None) None)
  = stopped []
      ["Error: Cookie file not found: /Users/ada/Library/Application Support/Google/Chrome/Default/Cookies"].
Proof.
  apply (missing_default_database_is_reported
           (run_of_ada "Darwin" (Exited0 "peanuts") (fun _ => None) None)
           "./getcookie.py" "github.com" "peanuts"); reflexivity.
Defined.

(** X24.  The first run.  When the storage file cannot be read and the run
    writes it, the written state has no origins, and its cookies are
    exactly the entries the loop emitted for the domain given on the
    command line, under the stripped output of the keychain command. *)
Theorem first_run_stores_the_emitted_entries
        {Origin : Type} (w : World Origin) (storage_state : Storage.t Origin) :
  storage_json w = None ->
  written (getcookie w) = Some storage_state ->
  Storage.origins storage_state = [] /\
  exists script requested rest out table shown,
    argv w = script :: requested :: rest /\
    security w = Exited0 out /\
    databases w (cookies_file (home w) (profile_of rest)) = Some table /\
    convert_all (Str.strip out) ([], requested)
                (fst (get_cookies requested table))
    = Ok (Storage.cookies storage_state, shown).
Proof.
  intros Hnone Hwritten.
  destruct (getcookie_cases w)
    as [H | [[msg H] | [[d H] | [s [d [r [o [t [n [sh [Hargv [_ [Hsec [Hfile [Hloop H]]]]]]]]]]]]]]];
    rewrite H in Hwritten; cbn in Hwritten; try discriminate Hwritten.
  injection Hwritten as <-. unfold state_read. rewrite Hnone.
  cbn [Storage.cookies Storage.origins kept]. split; [reflexivity |].
  exists s, d, r, o, t, sh.
  split; [exact Hargv |]. split; [exact Hsec |]. split; [exact Hfile |].
  exact Hloop.
Qed.

Lemma first_run_witness :
  Storage.origins (storage_of [plain_entry "sid" "a" ".github.com";
                               plain_entry "sid" "b" ".github.com"]) = [] /\
  exists script requested rest out table shown,
    ["./getcookie.py"; "github.com"] = script :: requested :: rest /\
    Exited0 ("peanuts" ++ newline) = Exited0 out /\
    chrome_of_ada (cookies_file "/Users/ada" (profile_of rest)) = Some table /\
    convert_all (Str.strip out) ([], requested)
                (fst (get_cookies requested table))
    = Ok ([plain_entry "sid" "a" ".github.com";
           plain_entry "sid" "b" ".github.com"], shown).
Proof.
  apply (first_run_stores_the_emitted_entries
           (run_of_ada "Darwin" (Exited0 ("peanuts" ++ newline))
                       chrome_of_ada None)
           (storage_of [plain_entry "sid" "a" ".github.com";
                        plain_entry "sid" "b" ".github.com"])).
  - reflexivity.
  - vm_compute. reflexivity.
Defined.



(** ** Stripping whitespace *)

Section Strip.

Import Str.

Lemma reverse_onto_append (s acc : string) :
  reverse_onto s acc = (reverse s ++ acc)%string.
Proof.
  unfold reverse. revert acc.
  induction s as [|c s IH]; intros acc; [reflexivity |].
  cbn [reverse_onto]. rewrite IH, (IH (String c "")), append_assoc.
  reflexivity.
Qed.

Lemma reverse_append (a b : string) :
  reverse (a ++ b) = (reverse b ++ reverse a)%string.
Proof.
  induction a as [|c a IH].
  - cbn [String.append]. now rewrite append_nil_r.
  - unfold reverse in *. cbn [String.append reverse_onto].
    rewrite (reverse_onto_append (a ++ b)), (reverse_onto_append a).
    unfold reverse. rewrite IH. apply append_assoc.
Qed.

Lemma reverse_involutive (s : string) : reverse (reverse s) = s.
Proof.
  induction s as [|c s IH]; [reflexivity |].
  change (String c s) with (String c "" ++ s)%string at 1.
  rewrite reverse_append, reverse_append, IH. reflexivity.
Qed.

(** What [drop_space] leaves is the end of its argument. *)
Lemma drop_space_suffix (backwards : bool) (n : nat) :
  forall s, (String.length s <= n)%nat ->
            exists p, s = (p ++ drop_space backwards s)%string.
Proof.
  induction n as [|n IH]; intros s Hs.
  { destruct s; [now exists "" | cbn in Hs; lia]. }
  destruct s as [|c1 t1]; [now exists "" |]. cbn [drop_space].
  destruct (ascii_space c1).
  { destruct (IH t1 ltac:(cbn in Hs; lia)) as [p Hp].
    exists (String c1 p). cbn [String.append]. now f_equal. }
  destruct t1 as [|c2 t2]; [now exists "" |].
  destruct (if backwards then space2 c2 c1 else space2 c1 c2).
  { destruct (IH t2 ltac:(cbn in Hs; lia)) as [p Hp].
    exists (String c1 (String c2 p)). cbn [String.append]. now do 2 f_equal. }
  destruct t2 as [|c3 t3]; [now exists "" |].
  destruct (if backwards then space3 c3 c2 c1 else space3 c1 c2 c3).
  { destruct (IH t3 ltac:(cbn in Hs; lia)) as [p Hp].
    exists (String c1 (String c2 (String c3 p))). cbn [String.append].
    now do 3 f_equal. }
  now exists "".
Qed.

Lemma drop_space_length (backwards : bool) (s : string) :
  (String.length (drop_space backwards s) <= String.length s)%nat.
Proof.
  destruct (drop_space_suffix backwards _ s (le_n _)) as [p Hp].
  rewrite Hp at 2. rewrite string_length_append. lia.
Qed.

(** A string that [drop_space] leaves alone has no whitespace in front,
    and neither has any string that starts it. *)
Lemma drop_space_prefix (backwards : bool) (x p q : string) :
  drop_space backwards x = x -> x = (p ++ q)%string ->
  drop_space backwards p = p.
Proof.
  intros Hfixed ->.
  assert (Hshort : forall t : string,
             (String.length t < String.length (p ++ q))%nat ->
             drop_space backwards t <> (p ++ q)%string).
  { intros t Ht H. pose proof (drop_space_length backwards t) as Hlen.
    rewrite H in Hlen. lia. }
  assert (Habsurd : forall t : string,
             (String.length t < String.length (p ++ q))%nat ->
             drop_space backwards t = (p ++ q)%string -> False)
    by (intros t Ht H; exact (Hshort t Ht H)).
  clear Hshort.
  destruct p as [|c1 [|c2 [|c3 p3]]]; try reflexivity;
    cbn [drop_space String.append] in Hfixed |- *.
  - destruct (ascii_space c1); [| reflexivity].
    exfalso. apply (Habsurd q); [cbn; lia | exact Hfixed].
  - destruct (ascii_space c1).
    { exfalso. apply (Habsurd (String c2 q)); [cbn; lia | exact Hfixed]. }
    destruct (if backwards then space2 c2 c1 else space2 c1 c2);
      [| reflexivity].
    exfalso. apply (Habsurd q); [cbn; lia | exact Hfixed].
  - destruct (ascii_space c1).
    { exfalso.
      apply (Habsurd (String c2 (String c3 (p3 ++ q))));
        [cbn; lia | exact Hfixed]. }
    destruct (if backwards then space2 c2 c1 else space2 c1 c2).
    { exfalso.
      apply (Habsurd (String c3 (p3 ++ q))); [cbn; lia | exact Hfixed]. }
    destruct (if backwards then space3 c3 c2 c1 else space3 c1 c2 c3);
      [| reflexivity].
    exfalso. apply (Habsurd (p3 ++ q)%string); [cbn; lia | exact Hfixed].
Qed.

(** Once dropped, nothing more is dropped. *)
Lemma drop_space_fixed (backwards : bool) (n : nat) :
  forall s, (String.length s <= n)%nat ->
            drop_space backwards (drop_space backwards s)
            = drop_space backwards s.
Proof.
  induction n as [|n IH]; intros s Hs.
  { destruct s; [reflexivity | cbn in Hs; lia]. }
  destruct s as [|c1 t1]; [reflexivity |]. cbn [drop_space].
  destruct (ascii_space c1) eqn:C1.
  { apply IH. cbn in Hs; lia. }
  destruct t1 as [|c2 t2]; [cbn [drop_space]; now rewrite C1 |].
  destruct (if backwards then space2 c2 c1 else space2 c1 c2) eqn:C2.
  { apply IH. cbn in Hs; lia. }
  destruct t2 as [|c3 t3]; [cbn [drop_space]; now rewrite C1, C2 |].
  destruct (if backwards then space3 c3 c2 c1 else space3 c1 c2 c3) eqn:C3.
  { apply IH. cbn in Hs; lia. }
  cbn [drop_space]. now rewrite C1, C2, C3.
Qed.

Lemma strip_idempotent (s : string) : strip (strip s) = strip s.
Proof.
  unfold strip.
  set (x := drop_space false s).
  assert (Hx : drop_space false x = x)
    by (apply (drop_space_fixed false _ s (le_n _))).
  destruct (drop_space_suffix true _ (reverse x) (le_n _)) as [p Hp].
  set (z := drop_space true (reverse x)) in *.
  assert (Hz : drop_space true z = z)
    by (apply (drop_space_fixed true _ (reverse x) (le_n _))).
  assert (Hfront : drop_space false (reverse z) = reverse z).
  { apply (drop_space_prefix false x (reverse z) (reverse p)); [exact Hx |].
    rewrite <- reverse_append, <- Hp. symmetry. apply reverse_involutive. }
  rewrite Hfront, reverse_involutive, Hz. reflexivity.
Qed.

End Strip.

(** X26.  The password handed to the decryption.  [get_password] returns a
    password only on macOS and only when the [security] command succeeds;
    the password is the command's output stripped of surrounding
    whitespace, and stripping it again changes nothing. *)
Theorem password_is_stripped (platform : string) (keychain : completed)
        (password : string) :
  get_password platform keychain = inr password ->
  Str.strip password = password
  /\ platform = "Darwin"
  /\ exists out, keychain = Exited0 out /\ password = Str.strip out.
Proof.
  unfold get_password.
  destruct (String.eqb_spec platform "Darwin") as [-> | _];
    cbn [negb]; [| intros H; discriminate H].
  destruct keychain as [out | err]; [| intros H; discriminate H].
  intros H. injection H as <-.
  split; [apply strip_idempotent |]. split; [reflexivity |].
  now exists out.
Qed.

Lemma password_is_stripped_witness :
  Str.strip "peanuts" = "peanuts"
  /\ "Darwin" = "Darwin"
  /\ exists out,
       Exited0 ("  peanuts" ++ newline) = Exited0 out
       /\ "peanuts" = Str.strip out.
Proof.
  apply (password_is_stripped "Darwin" (Exited0 ("  peanuts" ++ newline))
                              "peanuts").
  vm_compute. reflexivity.
Defined.

(** ** Values that are text *)

Section TextValues.

Lemma text_lstrip_dot (s : string) : text s -> text (lstrip s ".").
Proof.
  induction s as [|a s IH]; intros Hs; cbn [lstrip char_in]; [exact Hs |].
  rewrite orb_false_r.
  destruct (Ascii.eqb_spec a "."%char) as [-> | _]; [| exact Hs].
  apply IH. now apply text_dot.
Qed.

Lemma text_emitted_domain (cookie : Cookie) :
  text (host_key cookie) -> text (emitted_domain cookie).
Proof.
  intros Hhost. unfold emitted_domain.
  destruct (startswith (name cookie) "__Host-");
    [now apply text_lstrip_dot |].
  destruct (startswith (host_key cookie) "."); [exact Hhost |].
  exact (proj1 (text_dot (host_key cookie)) Hhost).
Qed.

Lemma text_strip_domain_hash (h : string) (plaintext : list byte) :
  text (strip_domain_hash h plaintext).
Proof.
  unfold strip_domain_hash.
  destruct (32 <=? List.length plaintext)%nat; [| apply decode_ignore_text].
  cbv zeta. destruct (Bytes.eqb _ _); apply decode_ignore_text.
Qed.

(** Whatever [decrypted] returns for a cookie read from the database is
    text. *)
Lemma decrypted_text (self : Cookie) (password v : string) :
  text (value self) -> decrypted self password = Ok v -> text v.
Proof.
  intros Hvalue. unfold decrypted.
  destruct (truthy (value self)); [intros H; now injection H as <- |].
  destruct (encrypted self) as [|b bs]; [intros H; now injection H as <- |].
  destruct (existsb _ _).
  - cbv zeta. destruct (AES.cbc_decrypt _ _ _) as [block | e]; cbn [bind];
      [| intros H; discriminate H].
    intros H. injection H as <-. apply text_strip_domain_hash.
  - intros H. injection H as <-. apply decode_ignore_text.
Qed.

End TextValues.

(** X27.  Every string a run emits is text.  When the loop over the cookies
    read from the database ends without an exception, the name, value,
    domain and path of every emitted entry are well-formed UTF-8 text:
    the columns are decoded with errors ignored, [decrypted] returns a
    column or a lossy decoding, and the normalisation of the domain only
    removes or adds dots. *)
Theorem emitted_entries_are_text
        (requested password : string) (table : list DbRow.t)
        (new_cookies : list Entry.t) (shown : string) :
  convert_all password ([], requested) (fst (get_cookies requested table))
  = Ok (new_cookies, shown) ->
  Forall text_entry new_cookies.
Proof.
  intros Hloop. apply convert_all_inv in Hloop.
  destruct Hloop as [emitted [-> [Hall _]]]. cbn [app].
  apply Forall_forall. intros e He.
  rewrite Forall_forall in Hall. destruct (Hall e He) as [cookie [Hin Hfrom]].
  unfold get_cookies in Hin. cbn [fst] in Hin. apply in_map_iff in Hin.
  destruct Hin as [row [<- _]].
  unfold text_entry.
  rewrite (from_name _ _ _ Hfrom), (from_domain _ _ _ Hfrom),
    (from_path _ _ _ Hfrom).
  split; [apply decode_ignore_text |]. split; [| split].
  - eapply decrypted_text; [| exact (from_value _ _ _ Hfrom)].
    cbn [value]. apply decode_ignore_text.
  - apply text_emitted_domain. apply decode_ignore_text.
  - apply decode_ignore_text.
Qed.

Lemma emitted_entries_are_text_witness :
  Forall text_entry [plain_entry "sid" "a" ".github.com";
                     plain_entry "sid" "b" ".github.com"].
Proof.
  apply (emitted_entries_are_text "github.com" "peanuts" github_table
                                  _ ".github.com").
  vm_compute. reflexivity.
Defined.

(** X28.  When the password plays no part.  Unless the plaintext column is
    empty and the encrypted column starts with [v10] or [v11],
    [decrypted] does not decrypt and does not raise: it returns the
    plaintext column when that is not empty, and otherwise the lossy
    decoding of the encrypted column as it is (the empty string when that
    is empty too). *)
Theorem decrypted_without_marker (self : Cookie) (password : string) :
  ~ (value self = "" /\ v1x_prefixed (encrypted self)) ->
  decrypted self password
  = Ok (if truthy (value self) then value self
        else UTF8.decode_ignore (encrypted self)).
Proof.
  intros Hplain. unfold decrypted.
  destruct (value self) as [|c v] eqn:Hvalue; cbn [truthy]; [| reflexivity].
  destruct (encrypted self) as [|b bs] eqn:Henc; [reflexivity |].
  rewrite <- Henc.
  pose proof (v1x_prefixed_iff (encrypted self)) as Hmark.
  destruct (existsb _ _); [| reflexivity].
  exfalso. apply Hplain. split; [reflexivity |].
  rewrite <- Henc. now apply Hmark.
Qed.

Lemma decrypted_without_marker_witness :
  decrypted cookie_with_both_columns "peanuts" = Ok "plain"
  /\ decrypted (example_cookie (Bytes.of_string "v20abc")) "peanuts"
     = Ok "v20abc".
Proof.
  split.
  - apply (decrypted_without_marker cookie_with_both_columns "peanuts").
    intros [H _]. discriminate H.
  - apply (decrypted_without_marker
             (example_cookie (Bytes.of_string "v20abc")) "peanuts").
    intros [_ [H | H]]; vm_compute in H; discriminate H.
Defined.

(** ** A trailing newline *)

Section TrailingNewline.

Import Str.

Lemma space2_newline (c : ascii) (backwards : bool) :
  (if backwards then space2 (ascii_of_nat 10) c
   else space2 c (ascii_of_nat 10)) = false.
Proof.
  destruct backwards; unfold space2; [reflexivity |].
  apply andb_false_r.
Qed.

Lemma space3_newline (c1 c2 : ascii) :
  space3 c1 c2 (ascii_of_nat 10) = false.
Proof.
  unfold space3. cbv zeta.
  change (nat_of_ascii (ascii_of_nat 10)) with 10%nat.
  destruct (nat_of_ascii c1 =? 225)%nat, (nat_of_ascii c1 =? 226)%nat,
    (nat_of_ascii c1 =? 227)%nat, (nat_of_ascii c2 =? 154)%nat,
    (nat_of_ascii c2 =? 128)%nat, (nat_of_ascii c2 =? 129)%nat;
    reflexivity.
Qed.

(** In front of a newline, [drop_space] drops what it drops without it,
    and the newline as well when nothing else is left. *)
Lemma drop_space_newline (n : nat) :
  forall s, (String.length s <= n)%nat ->
            drop_space false (s ++ newline)
            = match drop_space false s with
              | EmptyString => EmptyString
              | String c t => (String c t ++ newline)%string
              end.
Proof.
  induction n as [|n IH]; intros s Hs.
  { destruct s; [reflexivity | cbn in Hs; lia]. }
  destruct s as [|c1 t1]; [reflexivity |].
  cbn [String.append drop_space].
  destruct (ascii_space c1).
  { apply IH. cbn in Hs; lia. }
  destruct t1 as [|c2 t2].
  { cbn [String.append]. unfold newline.
    now rewrite (space2_newline c1 false). }
  cbn [String.append].
  destruct (space2 c1 c2).
  { apply IH. cbn in Hs; lia. }
  destruct t2 as [|c3 t3].
  { cbn [String.append]. unfold newline. now rewrite space3_newline. }
  cbn [String.append].
  destruct (space3 c1 c2 c3); [| reflexivity].
  apply IH. cbn in Hs; lia.
Qed.

Lemma strip_newline (s : string) : strip (s ++ newline) = strip s.
Proof.
  unfold strip. rewrite (drop_space_newline _ s (le_n _)).
  destruct (drop_space false s) as [|c t]; [reflexivity |].
  rewrite reverse_append. reflexivity.
Qed.

End TrailingNewline.

(** X29.  The newline that ends the output of the keychain command is not
    part of the password: [get_password] gives the same result for an
    output with and without a newline at its end. *)
Theorem password_ignores_trailing_newline
        (platform out : string) :
  get_password platform (Exited0 (out ++ newline))
  = get_password platform (Exited0 out).
Proof.
  unfold get_password. destruct (negb (platform =? "Darwin")); [reflexivity |].
  now rewrite strip_newline.
Qed.
